(** * The package submission pipeline of [src/api/app/apps.js]

    A shallow embedding of the two write handlers of the app store API,
    [app.post] (create a package) and [app.put] (update a package), with the
    helpers they share ([fileName], [checkPackage], [updateAndUpload]).

    The handlers are promise chains over external collaborators (the file
    system, the review tool, the manifest parser, the checksum, the remote
    store and the database).  A handler is embedded as a finite tree of
    effects ([Prog]); every node is one call to a collaborator together with
    its completion, and a rejected promise is a [Throw].  The tree is then
    run against a [World] (files on disk, registry collection, remote
    storage), one request at a time ([exec]) or several requests interleaved
    at their suspension points ([interleave]). *)

From stdpp Require Import base strings gmap list.
From Stdlib Require Import ZArith Ascii.

Local Open Scope string_scope.
Local Open Scope Z_scope.

#[local] Set Warnings "-clear-no-such-hyp".

(** ** JavaScript values *)

(** A value that is either a string or [undefined]. *)
Definition jsstring := option string.

(** [!!v] of JavaScript: [undefined] and the empty string are falsy. *)
Definition truthy (v : jsstring) : bool :=
  match v with
  | Some s => negb (String.eqb s "")
  | None => false
  end.

(** [a == b] on values that are strings or [undefined]. *)
Definition loose_eq (a b : jsstring) : bool :=
  match a, b with
  | Some x, Some y => String.eqb x y
  | None, None => true
  | _, _ => false
  end.

(** [s.endsWith(suffix)]: some tail of [s] is [suffix]. *)
Fixpoint endsWith (s suffix : string) : bool :=
  String.eqb s suffix ||
  match s with
  | EmptyString => false
  | String _ t => endsWith t suffix
  end.

(** What a promise is rejected with: a thrown string (the handlers throw
    their message constants) or an error object (a [TypeError], an I/O
    error of a collaborator). *)
Inductive Err : Type :=
| Thrown (message : string)
| ErrorObj (name message : string).

(** [err == CONSTANT] against one of the message constants. *)
Definition err_is (e : Err) (c : string) : bool :=
  match e with
  | Thrown s => String.eqb s c
  | ErrorObj _ _ => false
  end.

Definition TypeError (message : string) : Err := ErrorObj "TypeError" message.

(** ** Message constants (lines 26-32) *)

Definition NEEDS_MANUAL_REVIEW : string := "This app needs to be reviewed manually".
Definition MALFORMED_MANIFEST : string := "Your package manifest is malformed".
Definition DUPLICATE_PACKAGE : string := "A package with the same name already exists".
Definition PERMISSION_DENIED : string := "You do not have permission to update this app".
Definition BAD_FILE : string := "The file must be a click or snap package".
Definition WRONG_PACKAGE : string :=
  "The uploaded package does not match the name of the package you are editing".
Definition APP_NOT_FOUND : string := "App not found".

Definition NO_FILE : string := "No file upload specified".
Definition CREATE_FAILED : string :=
  "There was an error creating your app, please try again later".
Definition UPDATE_FAILED : string :=
  "There was an error updating your app, please try again later".

(** ** Data model *)

(** What the manifest parser resolves with ([parseData]). *)
Module Manifest.
Record t : Type := Build {
  name : jsstring;
  version : jsstring;
  architecture : jsstring;
  icon : jsstring;
}.
End Manifest.

(** A document of the [Package] collection.  [_id] is the object id of the
    document, [id] the package name the handlers query by. *)
Module Package.
Record t : Type := Build {
  _id : nat;
  id : jsstring;
  version : jsstring;
  architecture : jsstring;
  maintainer : jsstring;
  published : bool;
  download_sha512 : jsstring;
  icon : jsstring;
  package : jsstring;
}.

(** [new db.Package()]: a document with a fresh object id and no field. *)
Definition blank (oid : nat) : t :=
  Build oid None None None None false None None None.

(** [pkg.download_sha512 = v]. *)
Definition set_download_sha512 (v : jsstring) (p : t) : t :=
  Build (_id p) (id p) (version p) (architecture p) (maintainer p)
        (published p) v (icon p) (package p).
End Package.

(** [req.file], as multer leaves it. *)
Module File.
Record t : Type := Build {
  path : string;
  originalname : string;
}.
End File.

(** [req.body]: the form fields. *)
Module Body.
Record t : Type := Build {
  maintainer : jsstring;
  fields : list (string * string);
}.

Definition set_maintainer (v : jsstring) (b : t) : t := Build v (fields b).
End Body.

Module Request.
Record t : Type := Build {
  user_id : string;          (* req.user._id *)
  file : option File.t;      (* req.file *)
  body : option Body.t;      (* req.body *)
  params_id : string;        (* req.params.id *)
}.

Definition set_body (b : option Body.t) (r : t) : t :=
  Build (user_id r) (file r) b (params_id r).
End Request.

(** What the handler sends: [helpers.success(res, data)] or
    [helpers.error(res, message, code)]. *)
Inductive Response : Type :=
| Success (data : Package.t)
| Failure (message : string) (code : Z).

(** An upload to the remote store: the document, the local path of the
    binary and the icon of the manifest. *)
Record Artifact : Type := {
  art_pkg : Package.t;
  art_path : string;
  art_icon : jsstring;
}.

(** ** The world the handlers act on *)

Record World : Type := {
  files : gset string;            (* the upload directory *)
  registry : list Package.t;      (* the Package collection *)
  storage : list Artifact;        (* the remote store, oldest first *)
  next_oid : nat;                 (* source of fresh object ids *)
}.

(** The collaborators of the handlers that are not part of this file:
    the pure helpers it calls and the outcome of each external call. *)
Record Env : Type := {
  (* helpers.js and packages.js *)
  isAdminUser : Request.t -> bool;
  isAdminOrTrustedUser : Request.t -> bool;
  updateInfo : Package.t -> option Manifest.t -> option Body.t ->
               option File.t -> Package.t;
  default_status : Z;             (* status of helpers.error without a code *)
  (* outcome of the external calls *)
  renameAsync : string -> string -> option Err;
  reviewPackage : string -> Err + bool;
  parse : string -> Err + Manifest.t;
  checksum : string -> Err + string;
  findOne_fails : jsstring -> option Err;
  uploadPackage : Package.t -> string -> jsstring -> Err + Package.t;
  save_fails : Package.t -> option Err;
  unique_index : bool;            (* does the collection enforce unique ids? *)
  checksum_rejects_first : bool;  (* order of two rejections in Promise.all *)
}.

(** ** Effects

    One constructor for each call that leaves the handler.  The index is
    what the call hands back to the continuation; a call that can be
    rejected hands back [Err + _]. *)
Inductive Eff : Type -> Type :=
| Respond (r : Response) : Eff unit
| Log (msg : string) (e : Err) : Eff unit
| Unlink (path : string) : Eff unit
| Rename (src dst : string) : Eff (Err + unit)
| Review (path : string) : Eff (Err + bool)
| Parse (path : string) : Eff (Err + Manifest.t)
| Checksum (path : string) : Eff (Err + string)
| FindOne (id : jsstring) : Eff (Err + option Package.t)
| NewPackage : Eff Package.t
| Upload (pkg : Package.t) (path : string) (icon : jsstring) : Eff (Err + Package.t)
| Save (pkg : Package.t) : Eff (Err + Package.t).

(** A call together with what it handed back, as it appears in a trace. *)
Inductive Event : Type :=
| EvRespond (r : Response)
| EvLog (msg : string) (e : Err)
| EvUnlink (path : string)
| EvRename (src dst : string) (r : Err + unit)
| EvReview (path : string) (r : Err + bool)
| EvParse (path : string) (r : Err + Manifest.t)
| EvChecksum (path : string) (r : Err + string)
| EvFindOne (id : jsstring) (r : Err + option Package.t)
| EvNewPackage (pkg : Package.t)
| EvUpload (pkg : Package.t) (path : string) (icon : jsstring) (r : Err + Package.t)
| EvSave (pkg : Package.t) (r : Err + Package.t).

Definition event_of {X} (e : Eff X) : X -> Event :=
  match e in Eff X return X -> Event with
  | Respond r => fun _ => EvRespond r
  | Log msg err => fun _ => EvLog msg err
  | Unlink path => fun _ => EvUnlink path
  | Rename src dst => EvRename src dst
  | Review path => EvReview path
  | Parse path => EvParse path
  | Checksum path => EvChecksum path
  | FindOne id => EvFindOne id
  | NewPackage => EvNewPackage
  | Upload pkg path icon => EvUpload pkg path icon
  | Save pkg => EvSave pkg
  end.

(** ** Programs: finite trees of effects, with rejection *)
Inductive Prog (A : Type) : Type :=
| Ret (a : A)
| Throw (e : Err)
| Vis {X : Type} (e : Eff X) (k : X -> Prog A).

Arguments Ret {A} a.
Arguments Throw {A} e.
Arguments Vis {A X} e k.

(** [p.then(k)]. *)
Fixpoint bind {A B} (p : Prog A) (k : A -> Prog B) : Prog B :=
  match p with
  | Ret a => k a
  | Throw e => Throw e
  | Vis e h => Vis e (fun x => bind (h x) k)
  end.

(** [p.catch(h)]. *)
Fixpoint catch {A} (p : Prog A) (h : Err -> Prog A) : Prog A :=
  match p with
  | Ret a => Ret a
  | Throw e => h e
  | Vis e k => Vis e (fun x => catch (k x) h)
  end.

(** A promise left to settle on its own: its outcome as a value. *)
Fixpoint settle {A} (p : Prog A) : Prog (Err + A) :=
  match p with
  | Ret a => Ret (inr a)
  | Throw e => Ret (inl e)
  | Vis e k => Vis e (fun x => settle (k x))
  end.

(** The promise of a settled outcome. *)
Definition resume {A} (r : Err + A) : Prog A :=
  match r with
  | inl e => Throw e
  | inr a => Ret a
  end.

(** A call whose result is ignored or cannot be rejected. *)
Definition perform {X} (e : Eff X) : Prog X := Vis e Ret.

(** A call that returns a promise. *)
Definition await {X} (e : Eff (Err + X)) : Prog X := Vis e resume.

#[global] Instance prog_ret : MRet Prog := @Ret.
#[global] Instance prog_bind : MBind Prog := fun A B k p => bind p k.

(** [Promise.all] over two promises that are both in flight: it is
    rejected with the rejection delivered first.  [first] tells whether the
    second promise's rejection is delivered before the first one's. *)
Definition promise_all {A B} (first : bool) (a : Err + A) (b : Err + B)
  : Err + (A * B) :=
  match a, b with
  | inr x, inr y => inr (x, y)
  | inl e, inr _ => inl e
  | inr _, inl e => inl e
  | inl ea, inl eb => inl (if first then eb else ea)
  end.

(** ** Running the effects against the world *)

Definition with_files (fs : gset string) (w : World) : World :=
  {| files := fs; registry := registry w; storage := storage w;
     next_oid := next_oid w |}.

Definition with_registry (reg : list Package.t) (w : World) : World :=
  {| files := files w; registry := reg; storage := storage w;
     next_oid := next_oid w |}.

Definition with_storage (st : list Artifact) (w : World) : World :=
  {| files := files w; registry := registry w; storage := st;
     next_oid := next_oid w |}.

Definition with_next_oid (n : nat) (w : World) : World :=
  {| files := files w; registry := registry w; storage := storage w;
     next_oid := n |}.

(** [db.Package.findOne({id: v})]: the first document whose [id] is [v]. *)
Definition find_by_id (v : jsstring) (reg : list Package.t) : option Package.t :=
  List.find (fun q => loose_eq (Package.id q) v) reg.

(** Is the [id] of [pkg] already the [id] of another document? *)
Definition id_taken (pkg : Package.t) (reg : list Package.t) : bool :=
  existsb (fun q => loose_eq (Package.id q) (Package.id pkg)
                    && negb (Nat.eqb (Package._id q) (Package._id pkg))) reg.

(** [pkg.save()] on the collection: a document whose object id is known is
    replaced, a new one is appended. *)
Definition upsert (pkg : Package.t) (reg : list Package.t) : list Package.t :=
  if existsb (fun q => Nat.eqb (Package._id q) (Package._id pkg)) reg
  then map (fun q => if Nat.eqb (Package._id q) (Package._id pkg) then pkg else q) reg
  else reg ++ [pkg].

Definition ENOENT : Err := ErrorObj "Error" "ENOENT: no such file or directory".
Definition E11000 : Err := ErrorObj "MongoError" "E11000 duplicate key error".

(** ** Helpers of the handlers that need no collaborator *)

(** The test of lines 273-276 and 325-328. *)
Definition bad_extension (f : File.t) : bool :=
  negb (endsWith (File.originalname f) ".click")
  && negb (endsWith (File.originalname f) ".snap").

(** Lines 259-270. *)
Definition fileName (f : File.t) : string :=
  if endsWith (File.originalname f) ".click"
  then File.path f +:+ ".click"
  else File.path f +:+ ".snap".

(** The test of lines 302 and 340. *)
Definition malformed (parseData : Manifest.t) : bool :=
  negb (truthy (Manifest.name parseData))
  || negb (truthy (Manifest.version parseData))
  || negb (truthy (Manifest.architecture parseData)).

(** The string a caught value is reported with. *)
Definition message_of (err : Err) : string :=
  match err with
  | Thrown s => s
  | ErrorObj n m => n +:+ ": " +:+ m
  end.

(** Lines 333-335: [req.body] after the maintainer has been defaulted to
    the caller. *)
Definition default_body (req : Request.t) : option Body.t :=
  match Request.body req with
  | Some b =>
      if truthy (Body.maintainer b) then Some b
      else Some (Body.set_maintainer (Some (Request.user_id req)) b)
  | None => None
  end.

Definition default_maintainer (req : Request.t) : Request.t :=
  Request.set_body (default_body req) req.

(** What a run sent to the client. *)
Definition responses (tr : list Event) : list Response :=
  omap (fun ev => match ev with EvRespond r => Some r | _ => None end) tr.

(** The calls of request [i] in an interleaved run. *)
Definition calls_of (i : nat) (tr : list (nat * Event)) : list Event :=
  omap (fun '(j, ev) => if Nat.eqb i j then Some ev else None) tr.

(** The calls of an interleaved run that read or write the registry. *)
Definition registry_calls (tr : list (nat * Event)) : list (nat * Event) :=
  List.filter (fun c => match c.2 with
                        | EvFindOne _ _ | EvSave _ _ => true
                        | _ => false
                        end) tr.

(** Calls that write to the remote store or to the registry. *)
Definition is_write (ev : Event) : bool :=
  match ev with
  | EvUpload _ _ _ _ | EvSave _ _ => true
  | _ => false
  end.

(** Calls that touch the uploaded file or anything derived from it: all
    but the lookup of the record, the log and the response. *)
Definition file_processing (ev : Event) : bool :=
  match ev with
  | EvRespond _ | EvLog _ _ | EvFindOne _ _ => false
  | _ => true
  end.

Section Run.
Context (env : Env).

(** *** The collaborators *)

(** Modelled from the spec: the modules behind these calls ([fs], [../db],
    [./upload], [../utils/review-package], [../utils/click-parser-async],
    [../utils/checksum]) are not part of this file.  The file system
    deletes and renames paths of the upload directory; the registry is a
    collection looked up by [id] and saved by object id; the remote store
    keeps what was uploaded.  Whether a call is rejected, and what the
    analysis of a file resolves with, is read from [env]. *)
Definition handle {X} (e : Eff X) (w : World) : X * World :=
  match e in Eff X return X * World with
  | Respond _ => (tt, w)
  | Log _ _ => (tt, w)
  | Unlink path => (tt, with_files (files w ∖ {[path]}) w)
  | Rename src dst =>
      if decide (src ∈ files w) then
        match renameAsync env src dst with
        | Some err => (inl err, w)
        | None => (inr tt, with_files ({[dst]} ∪ files w ∖ {[src]}) w)
        end
      else (inl ENOENT, w)
  | Review path => (reviewPackage env path, w)
  | Parse path => (parse env path, w)
  | Checksum path => (checksum env path, w)
  | FindOne v =>
      match findOne_fails env v with
      | Some err => (inl err, w)
      | None => (inr (find_by_id v (registry w)), w)
      end
  | NewPackage =>
      (Package.blank (next_oid w), with_next_oid (S (next_oid w)) w)
  | Upload pkg path icon =>
      match uploadPackage env pkg path icon with
      | inl err => (inl err, w)
      | inr stored =>
          (inr stored,
           with_storage (storage w ++ [{| art_pkg := pkg; art_path := path;
                                          art_icon := icon |}]) w)
      end
  | Save pkg =>
      match save_fails env pkg with
      | Some err => (inl err, w)
      | None =>
          if unique_index env && id_taken pkg (registry w)
          then (inl E11000, w)
          else (inr pkg, with_registry (upsert pkg (registry w)) w)
      end
  end.

(** One request run to its end: how the promise chain settles, the world
    it leaves and the calls it made, oldest first. *)
Fixpoint exec {A} (p : Prog A) (w : World) : (Err + A) * World * list Event :=
  match p with
  | Ret a => (inr a, w, [])
  | Throw e => (inl e, w, [])
  | Vis e k =>
      let now := handle e w in
      let rest := exec (k now.1) now.2 in
      (rest.1.1, rest.1.2, event_of e now.1 :: rest.2)
  end.

(** One call of a request that is suspended at it. *)
Definition step {A} (p : Prog A) (w : World) : option (Prog A * World * Event) :=
  match p with
  | Vis e k =>
      let now := handle e w in Some (k now.1, now.2, event_of e now.1)
  | _ => None
  end.

(** Several requests in flight.  The schedule names, call after call, the
    request whose pending call completes; a request that has settled, or
    an index out of range, leaves everything as it is. *)
Fixpoint interleave {A} (sched : list nat) (ps : list (Prog A)) (w : World)
  : list (Prog A) * World * list (nat * Event) :=
  match sched with
  | [] => (ps, w, [])
  | i :: sched' =>
      match ps !! i with
      | Some p =>
          match step p w with
          | Some (p', w1, ev) =>
              let rest := interleave sched' (<[i := p']> ps) w1 in
              (rest.1.1, rest.1.2, (i, ev) :: rest.2)
          | None => interleave sched' ps w
          end
      | None => interleave sched' ps w
      end
  end.

(** *** The handlers *)

(** [helpers.error(res, message, code)]; [code] is optional. *)
Definition helpers_error (message : string) (code : option Z) : Prog unit :=
  perform (Respond (Failure message (default (default_status env) code))).

(** [helpers.success(res, packages.toJson(pkg, req))]. *)
Definition helpers_success (pkg : Package.t) : Prog unit :=
  perform (Respond (Success pkg)).

(** Lines 272-294.  [req.file] is read without a test. *)
Definition checkPackage (req : Request.t) : Prog unit :=
  match Request.file req with
  | None => Throw (TypeError "Cannot read property 'originalname' of undefined")
  | Some f =>
      if bad_extension f then
        _ ← perform (Unlink (File.path f));
        Throw (Thrown BAD_FILE)
      else
        _ ← await (Rename (File.path f) (fileName f));
        needsManualReview ←
          (if isAdminOrTrustedUser env req then Ret false
           else await (Review (fileName f)));
        if (needsManualReview : bool) then Throw (Thrown NEEDS_MANUAL_REVIEW)
        else Ret tt
  end.

(** Lines 296-319.  [pkg] is [None] when [findOne] resolved with [null]. *)
Definition updateAndUpload (pkg : option Package.t) (parseData : Manifest.t)
    (sha : string) (req : Request.t) : Prog Package.t :=
  match pkg with
  | None => Throw (TypeError "Cannot set property 'download_sha512' of null")
  | Some pkg =>
      let pkg := Package.set_download_sha512 (Some sha) pkg in
      if malformed parseData then Throw (Thrown MALFORMED_MANIFEST)
      else if truthy (Package.id pkg)
              && negb (loose_eq (Manifest.name parseData) (Package.id pkg))
      then Throw (Thrown WRONG_PACKAGE)
      else
        match Request.file req with
        | None => Throw (TypeError "Cannot read property 'path' of undefined")
        | Some f =>
            let pkg := updateInfo env pkg (Some parseData) (Request.body req)
                                  (Request.file req) in
            await (Upload pkg (fileName f) (Manifest.icon parseData))
        end
  end.

(** Lines 363-371. *)
Definition post_catch (err : Err) : Prog unit :=
  if err_is err NEEDS_MANUAL_REVIEW || err_is err MALFORMED_MANIFEST
     || err_is err DUPLICATE_PACKAGE
  then helpers_error (message_of err) (Some 400)
  else
    _ ← perform (Log "Error parsing new package:" err);
    helpers_error CREATE_FAILED None.

(** Lines 321-373, [app.post].  The parser, the checksum and the lookup
    are in flight together; [Promise.all] waits for the three. *)
Definition post (req : Request.t) : Prog unit :=
  match Request.file req with
  | None => helpers_error NO_FILE None
  | Some f =>
      if bad_extension f then
        _ ← helpers_error BAD_FILE None;
        perform (Unlink (File.path f))
      else
        let req := default_maintainer req in
        catch
          (_ ← checkPackage req;
           parsePromise ← settle (await (Parse (fileName f)));
           pkg ← perform NewPackage;
           sha ← settle (await (Checksum (fileName f)));
           existingPromise ← settle
             (parseData ← resume parsePromise;
              if malformed parseData then Throw (Thrown MALFORMED_MANIFEST)
              else
                existing ← await (FindOne (Manifest.name parseData));
                match existing with
                | Some _ => Throw (Thrown DUPLICATE_PACKAGE)
                | None => Ret parseData
                end);
           results ← resume (promise_all (checksum_rejects_first env)
                                         existingPromise sha);
           pkg ← updateAndUpload (Some pkg) results.1 results.2 req;
           pkg ← await (Save pkg);
           helpers_success pkg)
          post_catch
  end.

(** Lines 406-414. *)
Definition put_catch (err : Err) : Prog unit :=
  if err_is err PERMISSION_DENIED || err_is err BAD_FILE
     || err_is err NEEDS_MANUAL_REVIEW || err_is err MALFORMED_MANIFEST
     || err_is err WRONG_PACKAGE
  then helpers_error (message_of err) (Some 400)
  else
    _ ← perform (Log "Error updating package:" err);
    helpers_error UPDATE_FAILED None.

(** Line 379: [isAdminUser(req) || req.user._id == pkg.maintainer], where
    [pkg] may be [null]. *)
Definition may_update (req : Request.t) (pkg : option Package.t) : Prog bool :=
  if isAdminUser env req then Ret true
  else
    match pkg with
    | None => Throw (TypeError "Cannot read property 'maintainer' of null")
    | Some p => Ret (loose_eq (Some (Request.user_id req)) (Package.maintainer p))
    end.

(** Lines 375-415, [app.put]. *)
Definition put (req : Request.t) : Prog unit :=
  catch
    (pkg ← await (FindOne (Some (Request.params_id req)));
     saved ←
       (allowed ← may_update req pkg;
        if (allowed : bool) then
          match Request.file req with
          | Some f =>
              _ ← checkPackage req;
              parsePromise ← settle (await (Parse (fileName f)));
              sha ← settle (await (Checksum (fileName f)));
              results ← resume (promise_all (checksum_rejects_first env)
                                            parsePromise sha);
              pkg ← updateAndUpload pkg results.1 results.2 req;
              await (Save pkg)
          | None =>
              match pkg with
              | None => Throw (TypeError "Cannot read property 'save' of null")
              | Some p =>
                  await (Save (updateInfo env p None (Request.body req) None))
              end
          end
        else Throw (Thrown PERMISSION_DENIED));
     helpers_success saved)
    put_catch.
End Run.

(** ** Runs of the two operations *)

Inductive Submission : Type := CreateSubmission | UpdateSubmission.

Definition handler (env : Env) (op : Submission) (req : Request.t) : Prog unit :=
  match op with
  | CreateSubmission => post env req
  | UpdateSubmission => put env req
  end.

(** The calls of a run, oldest first, and the world it leaves. *)
Definition trace {A} (env : Env) (p : Prog A) (w : World) : list Event :=
  (exec env p w).2.

Definition after {A} (env : Env) (p : Prog A) (w : World) : World :=
  (exec env p w).1.2.

(** *** The messages of the two operations *)

(** What lines 364 and 407 report with status 400. *)
Definition client_messages (op : Submission) : list string :=
  match op with
  | CreateSubmission =>
      [NEEDS_MANUAL_REVIEW; MALFORMED_MANIFEST; DUPLICATE_PACKAGE]
  | UpdateSubmission =>
      [PERMISSION_DENIED; BAD_FILE; NEEDS_MANUAL_REVIEW; MALFORMED_MANIFEST;
       WRONG_PACKAGE]
  end.

(** What lines 323, 329, 369 and 412 report without a status. *)
Definition server_messages (op : Submission) : list string :=
  match op with
  | CreateSubmission => [NO_FILE; BAD_FILE; CREATE_FAILED]
  | UpdateSubmission => [UPDATE_FAILED]
  end.

(** ** Watching creates in flight for their lookups and their writes *)

(** Modelled from the spec: [packages.updateInfo] and
    [upload.uploadPackage] are not part of this file.  The spec says of a
    record that its [id] "equals the manifest's declared package name":
    [updateInfo] with a manifest gives the document the declared name for
    its [id], and the document an upload resolves with has the [id] of the
    document that was uploaded. *)
Definition names_records (env : Env) : Prop :=
  (∀ p m b f, Package.id (updateInfo env p (Some m) b f) = Manifest.name m)
  ∧ (∀ p path icon stored,
       uploadPackage env p path icon = inr stored →
       Package.id stored = Package.id p).

(** How far a create has come.  [sure] says that no rejection of the
    checksum is delivered before the answer of the lookup. *)
Inductive Stage : Type :=
| Checking (sure : bool)
| Cleared
| Found (sure : bool)
| Refused
| Saved
| Answered.

(** The calls a create under the name [n] makes, stage by stage: one
    lookup, of [n]; an upload or a save only after the lookup found
    nothing; a save only of a document with the [id] [n]; after a lookup
    that found a record or was rejected nothing but a failure for answer,
    DUPLICATE_PACKAGE with status 400 when [sure]; one answer.  [first] is
    [checksum_rejects_first]. *)
Definition monitor (n : jsstring) (first : bool) (st : Stage) (ev : Event)
  : option Stage :=
  match st with
  | Checking sure =>
      match ev with
      | EvFindOne v r =>
          if bool_decide (v = n) then
            Some (match r with
                  | inr None => Cleared
                  | inr (Some _) => Found sure
                  | inl _ => Refused
                  end)
          else None
      | EvChecksum _ (inl _) => Some (Checking (sure && negb first))
      | EvUpload _ _ _ _ | EvSave _ _ => None
      | EvRespond _ => Some Answered
      | _ => Some (Checking sure)
      end
  | Cleared =>
      match ev with
      | EvFindOne _ _ => None
      | EvSave pkg _ =>
          if bool_decide (Package.id pkg = n) then Some Saved else None
      | EvRespond _ => Some Answered
      | _ => Some Cleared
      end
  | Found sure =>
      match ev with
      | EvFindOne _ _ | EvUpload _ _ _ _ | EvSave _ _ => None
      | EvRespond (Failure msg code) =>
          if sure && negb (String.eqb msg DUPLICATE_PACKAGE && (code =? 400))
          then None else Some Answered
      | EvRespond (Success _) => None
      | _ => Some (Found sure)
      end
  | Refused =>
      match ev with
      | EvFindOne _ _ | EvUpload _ _ _ _ | EvSave _ _ => None
      | EvRespond (Failure _ _) => Some Answered
      | EvRespond (Success _) => None
      | _ => Some Refused
      end
  | Saved =>
      match ev with
      | EvFindOne _ _ | EvUpload _ _ _ _ | EvSave _ _ => None
      | EvRespond _ => Some Answered
      | _ => Some Saved
      end
  | Answered =>
      match ev with
      | EvFindOne _ _ | EvUpload _ _ _ _ | EvSave _ _ | EvRespond _ => None
      | _ => Some Answered
      end
  end.

(** A request at stage [st] keeps to [monitor] whatever the world is like
    when its calls complete. *)
Fixpoint obeys (env : Env) (n : jsstring) {A} (st : Stage) (p : Prog A) : Prop :=
  match p with
  | Vis e k =>
      ∀ w, match monitor n (checksum_rejects_first env) st
                         (event_of e (handle env e w).1) with
           | Some st' => obeys env n st' (k (handle env e w).1)
           | None => False
           end
  | _ => True
  end.

(** A save that the store accepted, and a lookup that found nothing. *)
Definition saved_ok (ev : Event) : bool :=
  match ev with EvSave _ (inr _) => true | _ => false end.

Definition miss (ev : Event) : bool :=
  match ev with EvFindOne _ (inr None) => true | _ => false end.

(** One call of an interleaved run, seen by the monitors of the requests.
    [s.2] says that a record has been saved; from then on no lookup may
    find nothing. *)
Definition observe (n : jsstring) (first : bool) (s : list Stage * bool)
    (c : nat * Event) : option (list Stage * bool) :=
  match s.1 !! c.1 with
  | Some st =>
      match monitor n first st c.2 with
      | Some st' =>
          if s.2 && miss c.2 then None
          else Some (<[c.1 := st']> s.1, s.2 || saved_ok c.2)
      | None => None
      end
  | None => None
  end.

Fixpoint watch (n : jsstring) (first : bool) (s : list Stage * bool)
    (tr : list (nat * Event)) : option (list Stage * bool) :=
  match tr with
  | [] => Some s
  | c :: tr' =>
      match observe n first s c with
      | Some s' => watch n first s' tr'
      | None => None
      end
  end.

(** What the calls of a request whose lookup came too late may be: no
    write, and for answer a failure, DUPLICATE_PACKAGE with status 400
    when [dup]. *)
Definition harmless (dup : bool) (ev : Event) : Prop :=
  is_write ev = false
  ∧ ∀ resp, ev = EvRespond resp →
      ∃ msg code, resp = Failure msg code
                  ∧ (dup = true → resp = Failure DUPLICATE_PACKAGE 400).

(** The stages from which a request writes no more; [dup] asks for the
    answer DUPLICATE_PACKAGE. *)
Definition late (dup : bool) (st : Stage) : Prop :=
  match st with
  | Found sure => dup = true → sure = true
  | Refused => dup = false
  | Answered => True
  | _ => False
  end.

(** ** The read handlers (lines 41-219) *)

(** *** String functions of JavaScript the read handlers use *)

(** [s.split(sep)] for a separator of one character. *)
Fixpoint split (sep : Ascii.ascii) (s : string) : list string :=
  match s with
  | EmptyString => [EmptyString]
  | String c t =>
      if Ascii.eqb c sep then EmptyString :: split sep t
      else
        match split sep t with
        | piece :: pieces => String c piece :: pieces
        | [] => [String c EmptyString]
        end
  end.

(** [pieces.join(sep)]. *)
Fixpoint join (sep : Ascii.ascii) (pieces : list string) : string :=
  match pieces with
  | [] => EmptyString
  | [piece] => piece
  | piece :: rest => piece +:+ String sep (join sep rest)
  end.

(** Is [pat] what [s] begins with? *)
Fixpoint startsWith (s pat : string) : bool :=
  match pat, s with
  | EmptyString, _ => true
  | String p pat', String c s' => Ascii.eqb c p && startsWith s' pat'
  | String _ _, EmptyString => false
  end.

(** What is left of [s] after its first [n] characters. *)
Fixpoint skipn_string (n : nat) (s : string) : string :=
  match n, s with
  | O, _ => s
  | S n', String _ t => skipn_string n' t
  | S _, EmptyString => EmptyString
  end.

(** [s.indexOf(pat)]: where [pat] first occurs in [s], or [-1]. *)
Fixpoint indexOf (s pat : string) : Z :=
  if startsWith s pat then 0
  else
    match s with
    | EmptyString => -1
    | String _ t => let i := indexOf t pat in if i <? 0 then -1 else i + 1
    end.

(** [s.replace(pat, rep)] for a string [pat]: the first occurrence only. *)
Fixpoint replace_first (s pat rep : string) : string :=
  if startsWith s pat then rep +:+ skipn_string (String.length pat) s
  else
    match s with
    | EmptyString => EmptyString
    | String c t => String c (replace_first t pat rep)
    end.

(** [s.replace(/\./g, '__')]: every dot. *)
Fixpoint replace_dots (s : string) : string :=
  match s with
  | EmptyString => EmptyString
  | String c t =>
      if Ascii.eqb c "."%char then "__" +:+ replace_dots t
      else String c (replace_dots t)
  end.

(** A value inside a template literal: [undefined] prints as such. *)
Definition to_string (v : jsstring) : string := default "undefined" v.

(** *** Requests and replies *)

(** A parameter of the query string that may be repeated: absent, one
    string, or an array of strings. *)
Inductive QueryValue : Type :=
| QAbsent
| QString (s : string)
| QArray (l : list string).

(** [!!v]: the empty string is falsy, every array is truthy. *)
Definition q_truthy (v : QueryValue) : bool :=
  match v with
  | QAbsent => false
  | QString s => negb (String.eqb s "")
  | QArray _ => true
  end.

(** [req.query], as far as the handlers read it.  [frameworks] and
    [architecture] are single strings: the handlers call string methods on
    them. *)
Module QueryString.
Record t : Type := Build {
  types : QueryValue;
  frameworks : jsstring;
  architecture : jsstring;
}.
End QueryString.

(** A condition on a field: a value, or [{$in: values}]. *)
Inductive Cond : Type :=
| Equals (v : string)
| OneOf (vs : list string).

(** The query documents the handlers build.  [architectures] stands for
    [$or: [{architecture: {$in: l}}, {architectures: {$in: l}}]]. *)
Module Query.
Record t : Type := Build {
  published : option bool;
  id : jsstring;
  types : option Cond;
  framework : option Cond;
  architectures : option (list string);
  maintainer : jsstring;
}.
End Query.

(** What lies under [data] in [helpers.success(res, data)]. *)
Inductive Payload : Type :=
| OnePackage (pkg : Package.t)
| Packages (pkgs : list Package.t)
| Counted (count : nat) (pkgs : list Package.t).

Inductive Reply : Type :=
| ReplySuccess (data : Payload)
| ReplyError (message : string) (code : Z)
| ReplyRepoList (pkgs : list Package.t)
| ReplyRedirect (code : Z) (location : jsstring)
| ReplyStream (status : Z) (headers : list (string * string)) (file : string).

(** What a read handler did: its reply, if it sent one, what it logged, the
    value it threw out of a callback, and the icons it fetched. *)
Record Outcome : Type := {
  reply : option Reply;
  logged : list Err;
  uncaught : option Err;
  fetched : list (string * string);
}.

Definition answered (r : Reply) : Outcome :=
  {| reply := Some r; logged := []; uncaught := None; fetched := [] |}.

(** Does the character occur in the string, and how often? *)
Fixpoint has_char (c : Ascii.ascii) (s : string) : bool :=
  match s with
  | EmptyString => false
  | String d t => Ascii.eqb d c || has_char c t
  end.

Fixpoint count_char (c : Ascii.ascii) (s : string) : nat :=
  match s with
  | EmptyString => O
  | String d t => (if Ascii.eqb d c then 1 else 0) + count_char c t
  end.

(** The collaborators of the read handlers. *)
Record ReadEnv : Type := {
  find_fails : option Err;                     (* is [find] rejected? *)
  update_fails : Package.t -> option Err;      (* is [update] rejected? *)
  other_fields : Query.t -> Package.t -> bool; (* how the store decides the
                                                  conditions on [types],
                                                  [framework] and the [$or] on
                                                  [architecture] and
                                                  [architectures] *)
  sort_name : list Package.t -> list Package.t; (* [.sort('name')] *)
  data_dir : string;                           (* [config.data_dir] *)
  helpers_download : string -> string -> Err + string;
  mime_lookup : string -> string;
}.

Definition FETCH_FAILED : string := "Could not fetch app list at this time".
Definition PACKAGE_NOT_FOUND : string := "Package not found".
Definition PLACEHOLDER : string := "../404.png".

(** *** Building the queries (lines 42-75 and 124-146) *)

(** Lines 58-63 and 129-134. *)
Definition framework_filter (qs : QueryString.t) : option Cond :=
  if truthy (QueryString.frameworks qs)
  then Some (OneOf (split ","%char (to_string (QueryString.frameworks qs))))
  else None.

(** Lines 65-75 and 136-146. *)
Definition architecture_filter (qs : QueryString.t) : option (list string) :=
  if truthy (QueryString.architecture qs) then
    let architecture := to_string (QueryString.architecture qs) in
    Some (architecture
            :: (if negb (String.eqb architecture "all") then ["all"] else []))
  else None.

(** Lines 44-56. *)
Definition types_filter (qs : QueryString.t) : Cond :=
  match QueryString.types qs with
  | QArray l => OneOf l
  | QString s => if negb (String.eqb s "") then Equals s
                 else OneOf ["app"; "webapp"; "scope"]
  | QAbsent => OneOf ["app"; "webapp"; "scope"]
  end.

(** Lines 42-75: the query of the list. *)
Definition list_query (qs : QueryString.t) : Query.t :=
  Query.Build (Some true) None (Some (types_filter qs)) (framework_filter qs)
              (architecture_filter qs) None.

(** Lines 124-146: the query for one app. *)
Definition app_query (qs : QueryString.t) (id : string) : Query.t :=
  Query.Build (Some true) (Some id) None (framework_filter qs)
              (architecture_filter qs) None.

(** The conditions of a query on [published], [id] and [maintainer]; the
    others are left to [other_fields] of the store. *)
Definition matches (q : Query.t) (p : Package.t) : bool :=
  match Query.published q with
  | Some b => Bool.eqb (Package.published p) b
  | None => true
  end
  && match Query.id q with
     | Some i => loose_eq (Package.id p) (Some i)
     | None => true
     end
  && match Query.maintainer q with
     | Some m => loose_eq (Package.maintainer p) (Some m)
     | None => true
     end.

(** *** The list (lines 92-120) *)

(** Lines 101-116: the envelope depends on the URL that was asked for. *)
Definition envelope (originalUrl : string) (count : nat)
    (formatted : list Package.t) : Reply :=
  if String.eqb originalUrl "/repo/repolist.json" then ReplyRepoList formatted
  else if String.eqb (String.substring 0 12 originalUrl) "/api/v1/apps"
       then ReplySuccess (Counted count formatted)
       else ReplySuccess (Packages formatted).

(** Lines 92-120: what is sent once the count and the page are there, or
    once one of the two was rejected. *)
Definition list_reply (env : Env) (originalUrl : string)
    (results : Err + list Package.t * nat) : Outcome :=
  match results with
  | inr (pkgs, count) => answered (envelope originalUrl count pkgs)
  | inl err =>
      {| reply := Some (ReplyError FETCH_FAILED (default_status env));
         logged := [err]; uncaught := None; fetched := [] |}
  end.

(** *** One app (lines 123-163) *)

Definition get_app (env : Env) (renv : ReadEnv) (qs : QueryString.t)
    (id : string) (reg : list Package.t) : Outcome :=
  let query := app_query qs id in
  let found :=
    match findOne_fails env (Some id) with
    | Some err => inl err
    | None =>
        match List.find (fun p => matches query p && other_fields renv query p)
                        reg with
        | Some pkg => inr pkg
        | None => inl (Thrown APP_NOT_FOUND)
        end
    end in
  match found with
  | inr pkg => answered (ReplySuccess (OnePackage pkg))
  | inl err =>
      if err_is err APP_NOT_FOUND
      then answered (ReplyError (message_of err) 404)
      else {| reply := Some (ReplyError FETCH_FAILED (default_status env));
              logged := [err]; uncaught := None; fetched := [] |}
  end.

(** *** Download (lines 166-189) *)

(** Lines 175-177: the key of a version under [downloads]. *)
Definition version_key (version : string) : string :=
  "v" +:+ replace_dots version.

(** [{$inc: {'downloads.<key>': 1}}] on the document [oid].  The counters
    map an object id and a key under [downloads] to a number; a counter
    that is not there yet counts from zero. *)
Definition increment (oid : nat) (key : string) (c : gmap (nat * string) nat)
  : gmap (nat * string) nat :=
  <[(oid, key) := S (default 0%nat (c !! (oid, key)))]> c.

(** Line 167: the query of a download. *)
Definition download_query (id : string) : Query.t :=
  Query.Build (Some true) (Some id) None None None None.

Definition download (env : Env) (renv : ReadEnv) (id : string)
    (reg : list Package.t) (c : gmap (nat * string) nat)
  : Outcome * gmap (nat * string) nat :=
  match findOne_fails env (Some id) with
  | Some err =>
      (answered (ReplyError (message_of err) (default_status env)), c)
  | None =>
      match List.find (matches (download_query id)) reg with
      | None => (answered (ReplyError PACKAGE_NOT_FOUND 404), c)
      | Some pkg =>
          match Package.version pkg with
          | None =>
              ({| reply := None; logged := [];
                  uncaught :=
                    Some (TypeError "Cannot read property 'replace' of undefined");
                  fetched := [] |}, c)
          | Some version =>
              match update_fails renv pkg with
              | Some err =>
                  ({| reply := None; logged := [err]; uncaught := None;
                      fetched := [] |}, c)
              | None =>
                  (answered (ReplyRedirect 301 (Package.package pkg)),
                   increment (Package._id pkg) (version_key version) c)
              end
          end
      end
  end.

(** *** Icon (lines 191-219) *)

(** Lines 192-195: the id that is looked up. *)
Definition icon_id (id : string) : string :=
  if indexOf id ".png" =? Z.of_nat (String.length id) - 4
  then replace_first id ".png" ""
  else id.

(** Line 202: where the icon of a package is kept. *)
Definition icon_file (renv : ReadEnv) (pkg : Package.t) : string :=
  data_dir renv +:+ "/" +:+ to_string (Package.version pkg) +:+ "-"
  +:+ to_string (Package.id pkg).

(** Lines 213-218. *)
Definition icon_missing (err : Err) (fetches : list (string * string)) : Outcome :=
  {| reply := Some (ReplyStream 404 [] PLACEHOLDER); logged := [err];
     uncaught := None; fetched := fetches |}.

(** Lines 209-212. *)
Definition icon_served (renv : ReadEnv) (filename : string)
    (fetches : list (string * string)) : Outcome :=
  {| reply :=
       Some (ReplyStream 200
               [("Content-type", mime_lookup renv filename);
                ("Cache-Control", "public, max-age=2592000")]
               filename);
     logged := []; uncaught := None; fetched := fetches |}.

(** Line 197: the query of an icon. *)
Definition icon_query (id : string) : Query.t :=
  Query.Build None (Some id) None None None None.

(** Lines 191-219; [cache] holds the files of the data directory. *)
Definition icon (env : Env) (renv : ReadEnv) (cache : gset string)
    (id : string) (reg : list Package.t) : Outcome :=
  let id := icon_id id in
  match findOne_fails env (Some id) with
  | Some err => icon_missing err []
  | None =>
      match List.find (matches (icon_query id)) reg with
      | None => icon_missing (Thrown "404") []
      | Some pkg =>
          if negb (truthy (Package.icon pkg)) then icon_missing (Thrown "404") []
          else
            let filename := icon_file renv pkg in
            if decide (filename ∈ cache) then icon_served renv filename []
            else
              let url := to_string (Package.icon pkg) in
              match helpers_download renv url filename with
              | inr file => icon_served renv file [(url, filename)]
              | inl err => icon_missing err [(url, filename)]
              end
      end
  end.

(** *** The packages of a maintainer (lines 221-241) *)

Definition manage_query (env : Env) (req : Request.t) : Query.t :=
  if isAdminUser env req then Query.Build None None None None None None
  else Query.Build None None None None None (Some (Request.user_id req)).

Definition manage_list (env : Env) (renv : ReadEnv) (req : Request.t)
    (reg : list Package.t) : Outcome :=
  match find_fails renv with
  | Some err =>
      {| reply := Some (ReplyError FETCH_FAILED (default_status env));
         logged := [err]; uncaught := None; fetched := [] |}
  | None =>
      answered (ReplySuccess
                  (Packages (sort_name renv
                               (List.filter (matches (manage_query env req))
                                            reg))))
  end.

(** ** A concrete store, for examples *)
Module Sample.
Definition manifest (n : string) : Manifest.t :=
  Manifest.Build (Some n) (Some "1.0") (Some "armhf") None.

(** Modelled from the spec: [packages.updateInfo] is not part of this
    file.  The manifest gives the record its identity ([id] is the
    declared name), version and architecture; the form gives its
    maintainer. *)
Definition merge (p : Package.t) (m : option Manifest.t) (b : option Body.t)
    (f : option File.t) : Package.t :=
  let p1 :=
    match m with
    | Some m =>
        Package.Build (Package._id p) (Manifest.name m) (Manifest.version m)
          (Manifest.architecture m) (Package.maintainer p)
          (Package.published p) (Package.download_sha512 p)
          (Package.icon p) (Package.package p)
    | None => p
    end in
  match b with
  | Some b =>
      Package.Build (Package._id p1) (Package.id p1) (Package.version p1)
        (Package.architecture p1) (Body.maintainer b) (Package.published p1)
        (Package.download_sha512 p1) (Package.icon p1) (Package.package p1)
  | None => p1
  end.

Definition EIO : Err := ErrorObj "Error" "EIO: i/o error, read".

(** Modelled from the spec: [helpers.isAdminUser],
    [helpers.isAdminOrTrustedUser] and the default status of
    [helpers.error] are not part of this file.  The caller named [admin]
    is the administrator and nobody else is trusted; an error without a
    code is a 500.  The parser, the checksum and the reviewer answer as
    given, every other collaborator works. *)
Definition make (parsed : Err + Manifest.t) (sum : Err + string)
    (needs_review sum_first unique : bool) : Env :=
  {| isAdminUser := fun r => String.eqb (Request.user_id r) "admin";
     isAdminOrTrustedUser := fun r => String.eqb (Request.user_id r) "admin";
     updateInfo := merge;
     default_status := 500;
     renameAsync := fun _ _ => None;
     reviewPackage := fun _ => inr needs_review;
     parse := fun _ => parsed;
     checksum := fun _ => sum;
     findOne_fails := fun _ => None;
     uploadPackage := fun p _ _ => inr p;
     save_fails := fun _ => None;
     unique_index := unique;
     checksum_rejects_first := sum_first |}.

(** Every file is a sound package named [foo]. *)
Definition env : Env :=
  make (inr (manifest "foo")) (inr "c0ffee") false false false.

(** The same store while the database refuses every lookup. *)
Definition ECONNREFUSED : Err := ErrorObj "MongoError" "connect ECONNREFUSED".

Definition offline (e : Env) : Env :=
  {| isAdminUser := isAdminUser e;
     isAdminOrTrustedUser := isAdminOrTrustedUser e;
     updateInfo := updateInfo e;
     default_status := default_status e;
     renameAsync := renameAsync e;
     reviewPackage := reviewPackage e;
     parse := parse e;
     checksum := checksum e;
     findOne_fails := fun _ => Some ECONNREFUSED;
     uploadPackage := uploadPackage e;
     save_fails := save_fails e;
     unique_index := unique_index e;
     checksum_rejects_first := checksum_rejects_first e |}.

(** The record of [foo], maintained by [alice]. *)
Definition foo : Package.t :=
  Package.Build 0 (Some "foo") (Some "0.9") (Some "armhf") (Some "alice")
                true (Some "abc") None None.

(** The record a create by [who] makes of a file in [env]. *)
Definition created (oid : nat) (who : string) : Package.t :=
  Package.Build oid (Some "foo") (Some "1.0") (Some "armhf") (Some who)
                false (Some "c0ffee") None None.

Definition upload_click : File.t := File.Build "/tmp/3f2a" "foo_1.0_armhf.click".
Definition upload_txt : File.t := File.Build "/tmp/3f2a" "notes.txt".
Definition upload_snap : File.t := File.Build "/tmp/77c1" "foo_1.0_armhf.snap".

(** A request about the package [foo]. *)
Definition request (who : string) (f : option File.t) : Request.t :=
  Request.Build who f (Some (Body.Build None [])) "foo".

(** Both uploads are on disk; the registry is empty, or holds [foo]. *)
Definition empty_world : World :=
  {| files := {["/tmp/3f2a"; "/tmp/77c1"]}; registry := []; storage := [];
     next_oid := 1 |}.

Definition world : World :=
  {| files := {["/tmp/3f2a"; "/tmp/77c1"]}; registry := [foo]; storage := [];
     next_oid := 1 |}.
End Sample.

(** A store for the read handlers in which the database answers, the
    counter update is rejected with [update_error] if one is given, the
    list is kept in the order of the collection, no other field is
    restricted and every fetch of an icon works. *)
Module SampleRead.
Definition read_env (update_error : option Err) : ReadEnv :=
  {| find_fails := None;
     update_fails := fun _ => update_error;
     other_fields := fun _ _ => true;
     sort_name := fun l => l;
     data_dir := "/srv/data";
     helpers_download := fun _ filename => inr filename;
     mime_lookup := fun _ => "image/png" |}.
End SampleRead.

(** A value the catch takes for one of its messages is reported as it. *)
Lemma err_is_message e c : err_is e c = true → message_of e = c.
Proof. destruct e; simpl; [apply String.eqb_eq | discriminate]. Qed.

(** ** Proof automation: walking the paths of a handler *)

Arguments endsWith : simpl never.
Arguments truthy : simpl never.
Arguments loose_eq : simpl never.
Arguments find_by_id : simpl never.
Arguments id_taken : simpl never.
Arguments upsert : simpl never.
Arguments bad_extension : simpl never.
Arguments fileName : simpl never.
Arguments malformed : simpl never.
Arguments default_body : simpl never.

Ltac unfold_handlers :=
  unfold trace, after, handler, post, put, checkPackage, updateAndUpload,
    may_update, post_catch, put_catch, helpers_error, helpers_success,
    default_maintainer, perform, await, mbind, prog_bind in *.

(** Case analysis on what the next test or the next collaborator says. *)
Ltac split_path :=
  match goal with
  | H : context [match ?x with _ => _ end] |- _ =>
      first [ is_var x; destruct x | destruct x eqn:? ]
  | |- context [match ?x with _ => _ end] =>
      first [ is_var x; destruct x | destruct x eqn:? ]
  end.

Ltac walk :=
  unfold_handlers;
  repeat (simpl in *; unfold resume, promise_all in *; simplify_eq;
          try split_path).

(** Goals about a trace that is known call by call. *)
Ltac in_trace := intros; decompose_list_elem_of; simplify_eq; try reflexivity.


Ltac close_path :=
  repeat match goal with
         | |- _ ∧ _ => split
         | |- ∃ _, _ => eexists
         end;
  try reflexivity; try (simpl; set_solver); try in_trace.

(** Which of the messages of a catch a caught value is. *)
Ltac which_message :=
  repeat match goal with
         | H : _ || _ = true |- _ => apply orb_true_iff in H as [H|H]
         | H : err_is _ _ = true |- _ => apply err_is_message in H; rewrite H
         end.

(** ** Facts about JavaScript values and the registry *)

Lemma loose_eq_refl v : loose_eq v v = true.
Proof. destruct v as [s|]; [apply String.eqb_refl | reflexivity]. Qed.

Lemma loose_eq_true a b : loose_eq a b = true ↔ a = b.
Proof.
  destruct a as [x|], b as [y|]; unfold loose_eq; try (split; congruence).
  rewrite String.eqb_eq. split; congruence.
Qed.

Lemma loose_eq_false a b : loose_eq a b = false ↔ a ≠ b.
Proof.
  rewrite <- loose_eq_true. destruct (loose_eq a b); split; congruence.
Qed.

Lemma truthy_nonempty s : s ≠ "" → truthy (Some s) = true.
Proof.
  intros Hs. unfold truthy. destruct (String.eqb s "") eqn:Heq; [|reflexivity].
  apply String.eqb_eq in Heq. contradiction.
Qed.

(** What [findOne] resolves with carries the [id] that was asked for. *)
Lemma find_by_id_id v reg pkg :
  find_by_id v reg = Some pkg → Package.id pkg = v.
Proof.
  unfold find_by_id. intros Hfind. apply find_some in Hfind as [_ Heq].
  by apply loose_eq_true.
Qed.

Lemma find_by_id_elem v reg pkg :
  find_by_id v reg = Some pkg → pkg ∈ reg.
Proof.
  unfold find_by_id. intros Hfind. apply find_some in Hfind as [Hin _].
  by apply list_elem_of_In.
Qed.

(** A record with the [id] asked for makes [findOne] resolve with a record. *)
Lemma find_by_id_hit v reg pkg :
  pkg ∈ reg → Package.id pkg = v → is_Some (find_by_id v reg).
Proof.
  unfold find_by_id. intros Hin Hid.
  destruct (List.find _ reg) as [q|] eqn:Hfind; [by eexists|].
  apply list_elem_of_In in Hin.
  pose proof (find_none _ _ Hfind _ Hin) as Hno. simpl in Hno.
  rewrite Hid, loose_eq_refl in Hno. discriminate.
Qed.

(** A saved document is in the collection. *)
Lemma upsert_elem pkg reg : pkg ∈ upsert pkg reg.
Proof.
  unfold upsert.
  destruct (existsb _ reg) eqn:Hex; [|set_solver].
  apply existsb_exists in Hex as (q & Hin & Hq).
  apply list_elem_of_In, in_map_iff. exists q. by rewrite Hq.
Qed.

(** Defaulting the maintainer touches the form only. *)
Lemma default_maintainer_file req :
  Request.file (default_maintainer req) = Request.file req.
Proof. reflexivity. Qed.

Lemma default_maintainer_user req :
  Request.user_id (default_maintainer req) = Request.user_id req.
Proof. reflexivity. Qed.

(** ** The two ways of running agree *)

Lemma interleave_settled {A} env (sched : list nat) (p : Prog A) w :
  step env p w = None →
  interleave env sched [p] w = ([p], w, []).
Proof.
  intros Hstep. induction sched as [|i sched IH]; [reflexivity|].
  simpl. destruct i as [|i]; simpl; [rewrite Hstep|]; exact IH.
Qed.

(** A request that is alone in flight runs as [exec] says. *)
Lemma interleave_alone {A} env (p : Prog A) w :
  ∃ n, ∀ k, (n ≤ k)%nat →
    interleave env (replicate k 0%nat) [p] w
    = ([resume (exec env p w).1.1], (exec env p w).1.2,
       (λ ev, (0%nat, ev)) <$> (exec env p w).2).
Proof.
  revert w. induction p as [a|e|X e k IH]; intros w.
  - exists 0%nat. intros n _. by apply interleave_settled.
  - exists 0%nat. intros n _. by apply interleave_settled.
  - destruct (IH (handle env e w).1 (handle env e w).2) as [n Hn].
    exists (S n). intros [|m] Hm; [lia|].
    simpl. rewrite Hn by lia. reflexivity.
Qed.

(** ** A handler always settles and answers exactly once *)

(** X1. Whatever the collaborators do, the promise chain of a create or of
    an update is never left rejected, and exactly one response is sent. *)
Lemma handler_answers_once env op req w :
  (exec env (handler env op req) w).1.1 = inr tt
  ∧ length (responses (trace env (handler env op req) w)) = 1%nat.
Proof.
  destruct op; walk; auto.
Qed.

(** A create that answers with a record has saved that record. *)
Lemma post_success_saved env req w pkg :
  responses (trace env (post env req) w) = [Success pkg] →
  pkg ∈ registry (after env (post env req) w).
Proof.
  intros Hok. walk; apply upsert_elem.
Qed.

(** The lookup of a create finds a record under the name of the manifest:
    nothing is written, and DUPLICATE_PACKAGE is the answer unless another
    rejection wins. *)
Lemma post_name_taken env req w p m existing :
  EvParse p (inr m) ∈ trace env (post env req) w →
  find_by_id (Manifest.name m) (registry w) = Some existing →
  ((∀ ev, ev ∈ trace env (post env req) w → is_write ev = false)
   ∧ registry (after env (post env req) w) = registry w
   ∧ storage (after env (post env req) w) = storage w
   ∧ (∃ msg code, responses (trace env (post env req) w) = [Failure msg code]))
  ∧ (malformed m = false →
     findOne_fails env (Manifest.name m) = None →
     ((∃ sha, checksum env p = inr sha) ∨ checksum_rejects_first env = false) →
     responses (trace env (post env req) w) = [Failure DUPLICATE_PACKAGE 400]).
Proof.
  intros Hparse Hfound.
  walk; decompose_list_elem_of; simplify_eq.
  all: try (split; [close_path|]).
  all: intros Hm Hdb [[sha Hsha]|Hfirst]; simplify_eq; try reflexivity.
  all: congruence.
Qed.

(** ** Create without a file *)

(** C10. A create request that carries no uploaded file is answered at once
    with the message 'No file upload specified'; that response is the only
    call of the run (no review, parse, checksum, storage or registry
    operation) and the world is left as it was. *)
Theorem post_without_file env req w :
  Request.file req = None →
  exec env (post env req) w
  = (inr tt, w, [EvRespond (Failure NO_FILE (default_status env))]).
Proof.
  intros Hfile. unfold post. rewrite Hfile. reflexivity.
Qed.

Lemma post_without_file_witness :
  Request.file (Sample.request "bob" None) = None
  ∧ exec Sample.env (post Sample.env (Sample.request "bob" None)) Sample.world
    = (inr tt, Sample.world, [EvRespond (Failure NO_FILE 500)]).
Proof.
  split; [reflexivity|].
  exact (post_without_file Sample.env (Sample.request "bob" None) Sample.world
           eq_refl).
Defined.

(** ** Update by somebody else *)

(** C7. When the lookup of an update yields a record and the caller is
    neither an administrator nor the maintainer of that record, the update
    is answered with PERMISSION_DENIED (status 400); the lookup and the
    response are the only calls of the run, so nothing of the file
    processing (extension check, rename, review, parse, checksum, upload,
    persist) takes place, and the world is left as it was. *)
Theorem put_permission_denied env req w pkg :
  findOne_fails env (Some (Request.params_id req)) = None →
  find_by_id (Some (Request.params_id req)) (registry w) = Some pkg →
  isAdminUser env req = false →
  loose_eq (Some (Request.user_id req)) (Package.maintainer pkg) = false →
  exec env (put env req) w
  = (inr tt, w,
     [EvFindOne (Some (Request.params_id req)) (inr (Some pkg));
      EvRespond (Failure PERMISSION_DENIED 400)])
  ∧ ∀ ev, ev ∈ trace env (put env req) w → file_processing ev = false.
Proof.
  intros Hdb Hfound Hadmin Hmaint.
  assert (Hrun : exec env (put env req) w
    = (inr tt, w,
       [EvFindOne (Some (Request.params_id req)) (inr (Some pkg));
        EvRespond (Failure PERMISSION_DENIED 400)])).
  { unfold put, may_update, await, mbind, prog_bind. simpl.
    rewrite Hdb. simpl. rewrite Hfound, Hadmin. simpl. rewrite Hmaint.
    reflexivity. }
  split; [exact Hrun|].
  unfold trace. rewrite Hrun. simpl. intros ev Hev.
  decompose_list_elem_of; subst; reflexivity.
Qed.

Lemma put_permission_denied_witness :
  let req := Sample.request "bob" (Some Sample.upload_click) in
  find_by_id (Some (Request.params_id req)) (registry Sample.world)
    = Some Sample.foo
  ∧ isAdminUser Sample.env req = false
  ∧ loose_eq (Some (Request.user_id req)) (Package.maintainer Sample.foo) = false
  ∧ exec Sample.env (put Sample.env req) Sample.world
    = (inr tt, Sample.world,
       [EvFindOne (Some "foo") (inr (Some Sample.foo));
        EvRespond (Failure PERMISSION_DENIED 400)]).
Proof.
  intros req.
  split; [reflexivity|]. split; [reflexivity|]. split; [reflexivity|].
  exact (proj1 (put_permission_denied Sample.env req Sample.world Sample.foo
                  eq_refl eq_refl eq_refl eq_refl)).
Defined.

(** ** Manual review *)

(** C4. Whenever the reviewer is asked about the file of a create or an
    update and answers that a manual review is needed (it is asked only for
    callers that are neither administrators nor trusted), the request is
    answered with NEEDS_MANUAL_REVIEW (status 400), the reviewed file, which
    is the renamed upload, is still on disk and no deletion was issued, and
    no record is created or updated: nothing is uploaded or saved, registry
    and remote store are as before. *)
Theorem manual_review_rejects env op req w p :
  EvReview p (inr true) ∈ trace env (handler env op req) w →
  responses (trace env (handler env op req) w)
    = [Failure NEEDS_MANUAL_REVIEW 400]
  ∧ (∃ f, Request.file req = Some f ∧ p = fileName f
          ∧ isAdminOrTrustedUser env
              (match op with
               | CreateSubmission => default_maintainer req
               | UpdateSubmission => req
               end) = false)
  ∧ p ∈ files (after env (handler env op req) w)
  ∧ (∀ q, EvUnlink q ∉ trace env (handler env op req) w)
  ∧ (∀ ev, ev ∈ trace env (handler env op req) w → is_write ev = false)
  ∧ registry (after env (handler env op req) w) = registry w
  ∧ storage (after env (handler env op req) w) = storage w.
Proof.
  intros Hflag. destruct op; walk; decompose_list_elem_of; simplify_eq.
  all: close_path.
Qed.

Lemma manual_review_rejects_witness :
  let env := Sample.make (inr (Sample.manifest "foo")) (inr "c0ffee")
                         true false false in
  let req := Sample.request "bob" (Some Sample.upload_click) in
  EvReview "/tmp/3f2a.click" (inr true) ∈ trace env (post env req) Sample.empty_world
  ∧ responses (trace env (post env req) Sample.empty_world)
    = [Failure NEEDS_MANUAL_REVIEW 400]
  ∧ "/tmp/3f2a.click" ∈ files (after env (post env req) Sample.empty_world)
  ∧ registry (after env (post env req) Sample.empty_world) = [].
Proof.
  intros env req.
  assert (Hflag : EvReview "/tmp/3f2a.click" (inr true)
                  ∈ trace env (handler env CreateSubmission req)
                          Sample.empty_world).
  { vm_compute. repeat constructor. }
  destruct (manual_review_rejects env CreateSubmission req Sample.empty_world
              _ Hflag) as (Hresp & _ & Hkept & _ & _ & Hreg & _).
  split; [exact Hflag|]. split; [exact Hresp|]. split; [exact Hkept|].
  exact Hreg.
Defined.

(** ** Upload before persist *)

(** C2. In every create or update that carries a file, a call of [save] is
    preceded by an upload that succeeded, and the document saved is the one
    the upload resolved with; when the upload is rejected, [save] is never
    called and the registry is as before. *)
Theorem upload_precedes_persist env op req w f :
  Request.file req = Some f →
  (∀ pre pkg r suf,
     trace env (handler env op req) w = (pre ++ EvSave pkg r :: suf)%list →
     ∃ p path icon, EvUpload p path icon (inr pkg) ∈ pre)
  ∧ (∀ p path icon err,
       EvUpload p path icon (inl err) ∈ trace env (handler env op req) w →
       (∀ pkg r, EvSave pkg r ∉ trace env (handler env op req) w)
       ∧ registry (after env (handler env op req) w) = registry w).
Proof.
  intros Hfile. destruct op; walk.
  all: split;
    [ intros pre pkg r suf Htr;
      repeat (destruct pre as [|? pre]; simpl in *; simplify_eq);
      do 3 eexists; repeat constructor
    | intros p path icon err Hup;
      decompose_list_elem_of; simplify_eq; close_path ].
Qed.

Lemma upload_precedes_persist_witness :
  let req := Sample.request "bob" (Some Sample.upload_click) in
  let tr := trace Sample.env (post Sample.env req) Sample.empty_world in
  Request.file req = Some Sample.upload_click
  ∧ (∃ pre suf,
       tr = (pre ++ EvSave (Sample.created 1 "bob")
                           (inr (Sample.created 1 "bob")) :: suf)%list
       ∧ ∃ p path icon,
           EvUpload p path icon (inr (Sample.created 1 "bob")) ∈ pre).
Proof.
  intros req tr. split; [reflexivity|].
  exists (take 7 tr), (drop 8 tr). split; [reflexivity|].
  exact (proj1 (upload_precedes_persist Sample.env CreateSubmission req
                  Sample.empty_world Sample.upload_click eq_refl)
           (take 7 tr) _ _ (drop 8 tr) eq_refl).
Defined.

(** ** Create under a name that is taken *)

(** C1 (amended). When the manifest parsed for a create bears the [id] of a
    record of the registry, the create writes nothing: no upload and no
    save is called, registry and remote store are as before, and the answer
    is a failure.  The failure is DUPLICATE_PACKAGE (status 400) when the
    manifest has its name, version and architecture, the lookup itself is
    not rejected, and the checksum is not rejected before the lookup has
    answered. *)
Theorem post_duplicate_name env req w p m existing :
  EvParse p (inr m) ∈ trace env (post env req) w →
  existing ∈ registry w →
  Package.id existing = Manifest.name m →
  ((∀ ev, ev ∈ trace env (post env req) w → is_write ev = false)
   ∧ registry (after env (post env req) w) = registry w
   ∧ storage (after env (post env req) w) = storage w
   ∧ (∃ msg code, responses (trace env (post env req) w) = [Failure msg code]))
  ∧ (malformed m = false →
     findOne_fails env (Manifest.name m) = None →
     ((∃ sha, checksum env p = inr sha) ∨ checksum_rejects_first env = false) →
     responses (trace env (post env req) w) = [Failure DUPLICATE_PACKAGE 400]).
Proof.
  intros Hparse Hin Hid.
  destruct (find_by_id_hit _ _ _ Hin Hid) as [first Hfirst].
  exact (post_name_taken env req w p m first Hparse Hfirst).
Qed.

Lemma post_duplicate_name_witness :
  let req := Sample.request "bob" (Some Sample.upload_click) in
  EvParse "/tmp/3f2a.click" (inr (Sample.manifest "foo"))
    ∈ trace Sample.env (post Sample.env req) Sample.world
  ∧ Sample.foo ∈ registry Sample.world
  ∧ Package.id Sample.foo = Manifest.name (Sample.manifest "foo")
  ∧ responses (trace Sample.env (post Sample.env req) Sample.world)
    = [Failure DUPLICATE_PACKAGE 400]
  ∧ registry (after Sample.env (post Sample.env req) Sample.world) = [Sample.foo].
Proof.
  intros req.
  assert (Hparse : EvParse "/tmp/3f2a.click" (inr (Sample.manifest "foo"))
                   ∈ trace Sample.env (post Sample.env req) Sample.world).
  { vm_compute. repeat constructor. }
  assert (Hin : Sample.foo ∈ registry Sample.world) by (simpl; repeat constructor).
  destruct (post_duplicate_name Sample.env req Sample.world _ _ Sample.foo
              Hparse Hin eq_refl) as [(_ & Hreg & _) Hdup].
  split; [exact Hparse|]. split; [exact Hin|]. split; [reflexivity|].
  split; [|exact Hreg].
  apply Hdup; [reflexivity | reflexivity | right; reflexivity].
Defined.

(** C1 as stated fails.  The registry holds [foo] and the manifest parsed
    for a create is named [foo]: when the manifest lacks its version the
    answer is MALFORMED_MANIFEST; when the checksum is rejected first, or
    when the database refuses the lookup, the answer is the general failure
    of a create.  None of them is DUPLICATE_PACKAGE. *)
Lemma post_duplicate_name_not_always_reported :
  let req := Sample.request "bob" (Some Sample.upload_click) in
  let no_version := Manifest.Build (Some "foo") None (Some "armhf") None in
  let env1 := Sample.make (inr no_version) (inr "c0ffee") false false false in
  let env2 := Sample.make (inr (Sample.manifest "foo")) (inl Sample.EIO)
                          false true false in
  let env3 := Sample.offline Sample.env in
  Sample.foo ∈ registry Sample.world
  ∧ Package.id Sample.foo = Manifest.name no_version
  ∧ Package.id Sample.foo = Manifest.name (Sample.manifest "foo")
  ∧ EvParse "/tmp/3f2a.click" (inr no_version)
      ∈ trace env1 (post env1 req) Sample.world
  ∧ responses (trace env1 (post env1 req) Sample.world)
      = [Failure MALFORMED_MANIFEST 400]
  ∧ EvParse "/tmp/3f2a.click" (inr (Sample.manifest "foo"))
      ∈ trace env2 (post env2 req) Sample.world
  ∧ responses (trace env2 (post env2 req) Sample.world)
      = [Failure CREATE_FAILED 500]
  ∧ EvParse "/tmp/3f2a.click" (inr (Sample.manifest "foo"))
      ∈ trace env3 (post env3 req) Sample.world
  ∧ responses (trace env3 (post env3 req) Sample.world)
      = [Failure CREATE_FAILED 500].
Proof.
  vm_compute. repeat split; repeat constructor.
Qed.

(** ** Update with the package of another name *)

(** C6 (amended). When the lookup of an update yields a record and the
    manifest parsed from the attached file bears another name than the [id]
    of that record, the update writes nothing: no upload and no save is
    called, registry and remote store are as before, and the answer is a
    failure.  The failure is WRONG_PACKAGE (status 400) when the manifest
    has its name, version and architecture and the checksum was computed. *)
Theorem put_other_package env req w p m pkg :
  Request.params_id req ≠ "" →
  EvFindOne (Some (Request.params_id req)) (inr (Some pkg))
    ∈ trace env (put env req) w →
  EvParse p (inr m) ∈ trace env (put env req) w →
  Manifest.name m ≠ Package.id pkg →
  ((∀ ev, ev ∈ trace env (put env req) w → is_write ev = false)
   ∧ registry (after env (put env req) w) = registry w
   ∧ storage (after env (put env req) w) = storage w
   ∧ (∃ msg code, responses (trace env (put env req) w) = [Failure msg code]))
  ∧ (malformed m = false →
     (∃ sha, EvChecksum p (inr sha) ∈ trace env (put env req) w) →
     responses (trace env (put env req) w) = [Failure WRONG_PACKAGE 400]).
Proof.
  intros Hid Hfound Hparse Hname.
  apply truthy_nonempty in Hid. apply loose_eq_false in Hname.
  walk; decompose_list_elem_of; simplify_eq.
  all: try match goal with
           | H : find_by_id _ _ = Some _ |- _ =>
               apply find_by_id_id in H; rewrite H in *
           end.
  all: try (rewrite Hid, Hname in *; discriminate).
  all: try (split; [close_path|]).
  all: intros Hm [sha Hsha]; decompose_list_elem_of; simplify_eq;
       try reflexivity.
  all: congruence.
Qed.

Lemma put_other_package_witness :
  let env := Sample.make (inr (Sample.manifest "bar")) (inr "c0ffee")
                         false false false in
  let req := Sample.request "alice" (Some Sample.upload_click) in
  Request.params_id req ≠ ""
  ∧ Manifest.name (Sample.manifest "bar") ≠ Package.id Sample.foo
  ∧ responses (trace env (put env req) Sample.world)
      = [Failure WRONG_PACKAGE 400]
  ∧ registry (after env (put env req) Sample.world) = [Sample.foo].
Proof.
  intros env req.
  assert (Hid : Request.params_id req ≠ "") by discriminate.
  assert (Hname : Manifest.name (Sample.manifest "bar") ≠ Package.id Sample.foo)
    by discriminate.
  assert (Hfound : EvFindOne (Some (Request.params_id req)) (inr (Some Sample.foo))
                   ∈ trace env (put env req) Sample.world).
  { vm_compute. repeat constructor. }
  assert (Hparse : EvParse "/tmp/3f2a.click" (inr (Sample.manifest "bar"))
                   ∈ trace env (put env req) Sample.world).
  { vm_compute. repeat constructor. }
  destruct (put_other_package env req Sample.world _ _ _ Hid Hfound Hparse Hname)
    as [(_ & Hreg & _) Hwrong].
  split; [exact Hid|]. split; [exact Hname|]. split; [|exact Hreg].
  apply Hwrong; [reflexivity|].
  exists "c0ffee". vm_compute. repeat constructor.
Defined.

(** C6 as stated fails.  [alice] updates her record [foo] with a file whose
    manifest is named [bar]: when the manifest lacks its version the answer
    is MALFORMED_MANIFEST, and when the checksum is rejected the answer is
    the general failure of an update; neither is WRONG_PACKAGE. *)
Lemma put_other_package_not_always_reported :
  let req := Sample.request "alice" (Some Sample.upload_click) in
  let bar := Manifest.Build (Some "bar") None (Some "armhf") None in
  let env1 := Sample.make (inr bar) (inr "c0ffee") false false false in
  let env2 := Sample.make (inr (Sample.manifest "bar")) (inl Sample.EIO)
                          false false false in
  find_by_id (Some (Request.params_id req)) (registry Sample.world)
    = Some Sample.foo
  ∧ Manifest.name bar ≠ Package.id Sample.foo
  ∧ EvParse "/tmp/3f2a.click" (inr bar) ∈ trace env1 (put env1 req) Sample.world
  ∧ responses (trace env1 (put env1 req) Sample.world)
      = [Failure MALFORMED_MANIFEST 400]
  ∧ EvParse "/tmp/3f2a.click" (inr (Sample.manifest "bar"))
      ∈ trace env2 (put env2 req) Sample.world
  ∧ responses (trace env2 (put env2 req) Sample.world)
      = [Failure UPDATE_FAILED 500].
Proof.
  split; [reflexivity|]. split; [discriminate|].
  vm_compute. repeat split; repeat constructor.
Qed.

(** ** Files that are no packages *)

(** C5 (amended). When the uploaded file ends in neither [.click] nor
    [.snap]: a create answers with BAD_FILE and deletes the temporary file,
    and these are its only calls; an update whose lookup yields a record,
    by an administrator or by the maintainer of that record, answers with
    BAD_FILE under status 400 and deletes the temporary file, and the
    lookup is its only other call. *)
Theorem bad_extension_rejected env req w f :
  Request.file req = Some f →
  bad_extension f = true →
  (∃ code,
     exec env (post env req) w
     = (inr tt, with_files (files w ∖ {[File.path f]}) w,
        [EvRespond (Failure BAD_FILE code); EvUnlink (File.path f)]))
  ∧ (∀ pkg,
       findOne_fails env (Some (Request.params_id req)) = None →
       find_by_id (Some (Request.params_id req)) (registry w) = Some pkg →
       isAdminUser env req
       || loose_eq (Some (Request.user_id req)) (Package.maintainer pkg) = true →
       exec env (put env req) w
       = (inr tt, with_files (files w ∖ {[File.path f]}) w,
          [EvFindOne (Some (Request.params_id req)) (inr (Some pkg));
           EvUnlink (File.path f);
           EvRespond (Failure BAD_FILE 400)]))
  ∧ File.path f ∉ files (with_files (files w ∖ {[File.path f]}) w).
Proof.
  intros Hfile Hbad. split; [|split].
  - exists (default_status env). unfold post. rewrite Hfile, Hbad. reflexivity.
  - intros pkg Hdb Hfound Hmay.
    unfold put, may_update, checkPackage, await, perform, mbind, prog_bind.
    simpl. rewrite Hdb. simpl. rewrite Hfound.
    destruct (isAdminUser env req); simpl in *.
    + rewrite Hfile. simpl. rewrite Hbad. reflexivity.
    + rewrite Hmay, Hfile. simpl. rewrite Hbad. reflexivity.
  - simpl. set_solver.
Qed.

Lemma bad_extension_rejected_witness :
  let req := Sample.request "alice" (Some Sample.upload_txt) in
  Request.file req = Some Sample.upload_txt
  ∧ bad_extension Sample.upload_txt = true
  ∧ responses (trace Sample.env (put Sample.env req) Sample.world)
      = [Failure BAD_FILE 400]
  ∧ "/tmp/3f2a" ∉ files (after Sample.env (put Sample.env req) Sample.world).
Proof.
  intros req.
  destruct (bad_extension_rejected Sample.env req Sample.world Sample.upload_txt
              eq_refl eq_refl) as (_ & Hput & Hgone).
  specialize (Hput Sample.foo eq_refl eq_refl eq_refl).
  unfold trace, after. rewrite Hput.
  split; [reflexivity|]. split; [reflexivity|]. split; [reflexivity|].
  exact Hgone.
Defined.

(** C5 as stated fails.  [bob], who is neither administrator nor maintainer
    of [foo], updates [foo] with the file [notes.txt]: the answer is
    PERMISSION_DENIED, not BAD_FILE, and the temporary file is not
    deleted. *)
Lemma bad_extension_not_always_reported :
  let req := Sample.request "bob" (Some Sample.upload_txt) in
  bad_extension Sample.upload_txt = true
  ∧ exec Sample.env (put Sample.env req) Sample.world
    = (inr tt, Sample.world,
       [EvFindOne (Some "foo") (inr (Some Sample.foo));
        EvRespond (Failure PERMISSION_DENIED 400)])
  ∧ "/tmp/3f2a" ∈ files Sample.world.
Proof.
  split; [reflexivity|]. split; [reflexivity|]. set_solver.
Qed.

(** ** Where the upload is deleted *)



(** C8 (the code departs from the claim).  [bob], who is neither the
    administrator nor the maintainer of [foo], updates [foo] with a package
    file attached.  The handler answers PERMISSION_DENIED right after the
    lookup and calls nothing else: the temporary file stays where it was
    uploaded.  The rejection for the extension in the same handler, here
    of [alice], the maintainer, with [notes.txt] attached, does delete the
    file. *)
Example put_unauthorized_keeps_upload :
  let denied := Sample.request "bob" (Some Sample.upload_click) in
  let wrong := Sample.request "alice" (Some Sample.upload_txt) in
  "/tmp/3f2a" ∈ files Sample.world
  ∧ exec Sample.env (put Sample.env denied) Sample.world
    = (inr tt, Sample.world,
       [EvFindOne (Some "foo") (inr (Some Sample.foo));
        EvRespond (Failure PERMISSION_DENIED 400)])
  ∧ trace Sample.env (put Sample.env wrong) Sample.world
    = [EvFindOne (Some "foo") (inr (Some Sample.foo));
       EvUnlink "/tmp/3f2a";
       EvRespond (Failure BAD_FILE 400)]
  ∧ ("/tmp/3f2a"
       ∉ files (after Sample.env (put Sample.env wrong) Sample.world)).
Proof.
  split; [set_solver|]. split; [reflexivity|]. split; [reflexivity|].
  vm_compute. set_solver.
Qed.

(** ** Update of a record that does not exist *)

(** C9 (the code departs from the claim).  The administrator updates [foo]
    with a package file while the registry holds no record: the lookup
    resolves with [null], yet the file is renamed, parsed and checksummed
    before the handler fails on the missing record and answers with the
    general failure of an update. *)
Example put_missing_record_as_admin :
  let req := Sample.request "admin" (Some Sample.upload_click) in
  find_by_id (Some (Request.params_id req)) (registry Sample.empty_world) = None
  ∧ trace Sample.env (put Sample.env req) Sample.empty_world
    = [EvFindOne (Some "foo") (inr None);
       EvRename "/tmp/3f2a" "/tmp/3f2a.click" (inr tt);
       EvParse "/tmp/3f2a.click" (inr (Sample.manifest "foo"));
       EvChecksum "/tmp/3f2a.click" (inr "c0ffee");
       EvLog "Error updating package:"
             (TypeError "Cannot set property 'download_sha512' of null");
       EvRespond (Failure UPDATE_FAILED 500)]
  ∧ ("/tmp/3f2a"
       ∉ files (after Sample.env (put Sample.env req) Sample.empty_world))
  ∧ ("/tmp/3f2a.click"
       ∈ files (after Sample.env (put Sample.env req) Sample.empty_world)).
Proof.
  split; [reflexivity|]. split; [reflexivity|].
  vm_compute. set_solver.
Qed.

(** ** Two creates under one name *)

(** *** Creates in flight keep to the monitor *)

(** A create whose manifest, if it has one, declares the name [n] keeps to
    the monitor of [n] from its first call on. *)
Lemma post_obeys env req n :
  names_records env →
  (∀ f m, Request.file req = Some f → parse env (fileName f) = inr m →
          Manifest.name m = n) →
  obeys env n (Checking true) (post env req).
Proof.
  intros [Hinfo Hup] Hname.
  unfold_handlers.
  destruct (Request.file req) as [f|] eqn:Hfile; [|simpl; auto].
  specialize (Hname f).
  repeat (simpl in *; unfold resume, promise_all in *; simplify_eq;
          try intros ?w; try split_path).
  all: try exact I.
  all: match goal with
       | H : bool_decide _ = false |- _ =>
           apply bool_decide_eq_false in H; apply H
       end.
  all: first [ by apply Hname
             | erewrite Hup by eassumption; rewrite Hinfo; by apply Hname ].
Qed.

(** A call of a request that keeps to the monitor is one the monitor
    allows, and what is left of the request keeps to it. *)
Lemma obeys_step env n {A} st (p p' : Prog A) w w' ev :
  obeys env n st p →
  step env p w = Some (p', w', ev) →
  ∃ st', monitor n (checksum_rejects_first env) st ev = Some st'
         ∧ obeys env n st' p'.
Proof.
  destruct p as [a|e|X e k]; simpl; try discriminate.
  intros Hp [= <- <- <-]. specialize (Hp w).
  destruct (monitor _ _ _ _) as [st'|]; [|done]. by exists st'.
Qed.

(** Only a save that the store accepts changes the registry, and it puts
    its document there. *)
Lemma step_registry env {A} (p p' : Prog A) w w' ev :
  step env p w = Some (p', w', ev) →
  (saved_ok ev = false ∧ registry w' = registry w)
  ∨ (∃ pkg, ev = EvSave pkg (inr pkg) ∧ pkg ∈ registry w').
Proof.
  destruct p as [a|e|X e k]; simpl; try discriminate.
  intros [= <- <- <-].
  destruct e; simpl; try (by left).
  - destruct (decide _); [destruct (renameAsync _ _ _)|]; by left.
  - destruct (findOne_fails _ _); by left.
  - destruct (uploadPackage _ _ _ _); by left.
  - destruct (save_fails _ _); [by left|].
    destruct (_ && _); [by left|].
    right. eexists. split; [reflexivity | apply upsert_elem].
Qed.

(** What a lookup resolves with is what the registry holds. *)
Lemma step_lookup env {A} (p p' : Prog A) w w' v ev :
  step env p w = Some (p', w', ev) →
  ev = EvFindOne v (inr None) →
  find_by_id v (registry w) = None.
Proof.
  destruct p as [a|e|X e k]; simpl; try discriminate.
  intros [= <- <- <-].
  destruct e; simpl; try discriminate.
  destruct (findOne_fails env id); simpl; congruence.
Qed.

(** *** The monitors of an interleaved run *)

Lemma watch_app n first s l1 l2 :
  watch n first s (l1 ++ l2)
  = match watch n first s l1 with
    | Some s1 => watch n first s1 l2
    | None => None
    end.
Proof.
  revert s. induction l1 as [|c l1 IH]; intros s; simpl; [done|].
  destruct (observe n first s c); [apply IH | done].
Qed.

(** However the calls of creates under one name interleave, every call is
    one the monitor of its request allows, and no lookup finds nothing
    once a record has been saved. *)
Lemma interleave_watched {A} env n sched :
  ∀ (ps : list (Prog A)) sts taken w,
    Forall2 (obeys env n) sts ps →
    (taken = true → is_Some (find_by_id n (registry w))) →
    is_Some (watch n (checksum_rejects_first env) (sts, taken)
                   (interleave env sched ps w).2).
Proof.
  induction sched as [|i sched IH]; intros ps sts taken w Hall Hreg.
  { by eexists. }
  cbn [interleave].
  destruct (ps !! i) as [p|] eqn:Hp; [|by apply IH].
  destruct (step env p w) as [[[p' w'] ev]|] eqn:Hstep; [|by apply IH].
  cbn [snd watch].
  destruct (Forall2_lookup_r _ _ _ _ _ Hall Hp) as (st & Hst & Hobeys).
  destruct (obeys_step _ _ _ _ _ _ _ _ Hobeys Hstep) as (st' & Hmon & Hnext).
  unfold observe. cbn [fst snd]. rewrite Hst, Hmon.
  assert (Hsaved : (taken || saved_ok ev) = true →
                   is_Some (find_by_id n (registry w'))).
  { intros Htaken.
    destruct (step_registry _ _ _ _ _ _ Hstep) as [[Hno Hsame]|(pkg & -> & Hin)].
    - rewrite Hno, orb_false_r in Htaken. rewrite Hsame. auto.
    - apply (find_by_id_hit _ _ pkg Hin).
      destruct st; simpl in Hmon; try discriminate.
      by case_bool_decide. }
  destruct (taken && miss ev) eqn:Hmiss.
  { exfalso. apply andb_true_iff in Hmiss as [-> Hmiss].
    destruct ev as [| | | | | | |v [?|[?|]]| | |]; try discriminate.
    pose proof (step_lookup _ _ _ _ _ _ _ Hstep eq_refl) as Hnone.
    destruct st; simpl in Hmon; try discriminate.
    case_bool_decide; [subst v|discriminate].
    destruct (Hreg eq_refl) as [x Hx]. congruence. }
  apply IH; [by apply Forall2_insert | exact Hsaved].
Qed.

Lemma calls_of_app i l1 l2 :
  calls_of i (l1 ++ l2) = (calls_of i l1 ++ calls_of i l2)%list.
Proof. apply omap_app. Qed.

Lemma calls_of_cons i j ev l :
  calls_of i ((j, ev) :: l)
  = if Nat.eqb i j then ev :: calls_of i l else calls_of i l.
Proof. unfold calls_of. simpl. by destruct (Nat.eqb i j). Qed.

(** What one call does to the stage of request [i]. *)
Lemma observe_stage n first s s' j ev i :
  observe n first s (j, ev) = Some s' →
  (s.2 = true → s'.2 = true)
  ∧ (saved_ok ev = true → s'.2 = true)
  ∧ (s.2 = true → miss ev = false)
  ∧ if Nat.eqb i j
    then ∃ st st', s.1 !! i = Some st ∧ monitor n first st ev = Some st'
                   ∧ s'.1 !! i = Some st'
    else s'.1 !! i = s.1 !! i.
Proof.
  unfold observe. cbn [fst snd].
  destruct (s.1 !! j) as [st|] eqn:Hst; [|done].
  destruct (monitor n first st ev) as [st'|] eqn:Hmon; [|done].
  destruct (s.2 && miss ev) eqn:Hmiss; [done|].
  intros [= <-]. cbn [fst snd].
  split; [by intros ->|]. split; [intros ->; apply orb_true_r|].
  split; [by intros Ht; rewrite Ht in Hmiss|].
  destruct (Nat.eqb i j) eqn:Hij.
  - apply Nat.eqb_eq in Hij as ->. exists st, st'.
    split; [done|]. split; [done|].
    apply list_lookup_insert_eq. by eapply lookup_lt_Some.
  - apply Nat.eqb_neq in Hij. by apply list_lookup_insert_ne.
Qed.

Lemma watch_taken n first l :
  ∀ s s', watch n first s l = Some s' → s.2 = true → s'.2 = true.
Proof.
  induction l as [|[j ev] l IH]; intros s s'; simpl; [by intros [= <-]|].
  destruct (observe n first s (j, ev)) as [s1|] eqn:Hobs; [|done].
  intros Hrest Htaken. apply (IH _ _ Hrest).
  destruct (observe_stage _ _ _ _ _ _ 0%nat Hobs) as (Hkeep & _). auto.
Qed.

(** A request that is still to look up has neither written nor answered,
    and it is sure of its checksum unless a rejection of the checksum has
    been delivered that comes first. *)
Lemma watch_before_lookup n first i l :
  ∀ s s' sure',
    watch n first s l = Some s' →
    s'.1 !! i = Some (Checking sure') →
    ∃ sure,
      s.1 !! i = Some (Checking sure)
      ∧ (∀ ev, ev ∈ calls_of i l →
               is_write ev = false ∧ ∀ resp, ev ≠ EvRespond resp)
      ∧ (sure = true →
         (∀ p e, EvChecksum p (inl e) ∉ calls_of i l) ∨ first = false →
         sure' = true).
Proof.
  induction l as [|[j ev] l IH]; intros s s' sure'; cbn [watch].
  { intros [= <-] Hst. exists sure'. split; [done|].
    split; [|done]. intros ev Hin. by apply elem_of_nil in Hin. }
  destruct (observe n first s (j, ev)) as [s1|] eqn:Hobs; [|done].
  intros Hrest Hst.
  destruct (IH _ _ _ Hrest Hst) as (sure1 & Hst1 & Hcalls & Hsure).
  pose proof (observe_stage _ _ _ _ _ _ i Hobs) as (_ & _ & _ & Hi).
  rewrite calls_of_cons. destruct (Nat.eqb i j).
  - destruct Hi as (st & st' & Hs & Hmon & Hs1).
    rewrite Hst1 in Hs1. injection Hs1 as <-.
    destruct st as [sure| | | | |]; simpl in Hmon;
      [|repeat case_match; discriminate..].
    exists sure. split; [done|].
    assert (Hev : is_write ev = false ∧ (∀ resp, ev ≠ EvRespond resp)
                  ∧ (sure = true →
                     (∀ p e, ev ≠ EvChecksum p (inl e)) ∨ first = false →
                     sure1 = true)).
    { destruct ev; simpl in Hmon; repeat case_match; simplify_eq;
        (split; [done|]); (split; [done|]); try done.
      intros -> [Hno| ->]; [|done]. by destruct (Hno path e). }
    destruct Hev as (Hw & Hr & Hs1).
    split.
    + intros ev' [->|Hin]%elem_of_cons; [done | by apply Hcalls].
    + intros Htrue Hcond. apply Hsure.
      * apply Hs1; [done|]. destruct Hcond as [Hno|]; [left|by right].
        intros p e ->. apply (Hno p e). apply elem_of_cons. by left.
      * destruct Hcond as [Hno|]; [left|by right].
        intros p e Hin. apply (Hno p e). apply elem_of_cons. by right.
  - rewrite Hi in Hst1. exists sure1. done.
Qed.

(** After a lookup that did not find nothing a request only answers, and
    with a failure. *)
Lemma watch_after_lookup n first i dup l :
  ∀ s s' st,
    watch n first s l = Some s' →
    s.1 !! i = Some st →
    late dup st →
    ∀ ev, ev ∈ calls_of i l → harmless dup ev.
Proof.
  induction l as [|[j ev] l IH]; intros s s' st; cbn [watch].
  { intros _ _ _ ev Hin. by apply elem_of_nil in Hin. }
  destruct (observe n first s (j, ev)) as [s1|] eqn:Hobs; [|done].
  intros Hrest Hst Hlate.
  pose proof (observe_stage _ _ _ _ _ _ i Hobs) as (_ & _ & _ & Hi).
  rewrite calls_of_cons. destruct (Nat.eqb i j).
  - destruct Hi as (st0 & st' & Hs & Hmon & Hs1).
    rewrite Hst in Hs. injection Hs as <-.
    assert (Hev : harmless dup ev ∧ late dup st').
    { unfold harmless.
      destruct st as [sure| |sure| | |]; simpl in Hlate; try done;
        destruct ev as [[?|msg code]| | | | | | | | | |]; simpl in Hmon;
        repeat case_match; simplify_eq; simpl;
        (split; [split; [done|]; intros resp [= <-] | done]).
      - eexists _, _. split; [done|]. intros Hdup.
        rewrite (Hlate Hdup) in *.
        match goal with
        | H : true && negb _ = false |- _ =>
            apply negb_false_iff, andb_true_iff in H as [Hm Hc]
        end.
        apply String.eqb_eq in Hm. apply Z.eqb_eq in Hc. by subst.
      - eexists _, _. split; [done|]. done. }
    destruct Hev as [Hev Hlate'].
    intros ev' [->|Hin]%elem_of_cons; [done|].
    by apply (IH _ _ _ Hrest Hs1 Hlate').
  - rewrite <- Hi in Hst. by apply (IH _ _ _ Hrest Hst Hlate).
Qed.

(** C3 (amended). Two creates whose manifests declare the same name are
    in flight, their calls interleaved in any order.  If the lookup of one
    is answered after a save of the other has been accepted, that request
    writes nothing, neither upload nor save, and its answer is a failure:
    of such a pair at most one succeeds.  The failure is DUPLICATE_PACKAGE
    with status 400 when the lookup is not rejected and no rejection of
    the checksum is delivered before the answer of the lookup.  The record
    a create saves is taken to bear the declared name as its [id]. *)
Theorem create_after_create env reqA reqB fA fB mA mB w sched
    pre j pkg mid i v r suf :
  names_records env →
  Request.file reqA = Some fA → parse env (fileName fA) = inr mA →
  Request.file reqB = Some fB → parse env (fileName fB) = inr mB →
  Manifest.name mA = Manifest.name mB →
  (interleave env sched [post env reqA; post env reqB] w).2
  = (pre ++ (j, EvSave pkg (inr pkg)) :: mid
         ++ (i, EvFindOne v r) :: suf)%list →
  (∀ ev, ev ∈ calls_of i (interleave env sched
                            [post env reqA; post env reqB] w).2 →
         is_write ev = false)
  ∧ (∀ resp,
       EvRespond resp ∈ calls_of i (interleave env sched
                                      [post env reqA; post env reqB] w).2 →
       ∃ msg code, resp = Failure msg code)
  ∧ ((∀ e, r ≠ inl e) →
     (∀ p e, EvChecksum p (inl e)
               ∉ calls_of i (interleave env sched
                               [post env reqA; post env reqB] w).2)
     ∨ checksum_rejects_first env = false →
     ∀ resp,
       EvRespond resp ∈ calls_of i (interleave env sched
                                      [post env reqA; post env reqB] w).2 →
       resp = Failure DUPLICATE_PACKAGE 400).
Proof.
  intros Hnames HfA HmA HfB HmB Hsame Htr.
  set (n := Manifest.name mA).
  set (first := checksum_rejects_first env).
  assert (Hwatch : is_Some (watch n first ([Checking true; Checking true], false)
                              (interleave env sched
                                 [post env reqA; post env reqB] w).2)).
  { apply interleave_watched; [|done].
    repeat constructor; apply post_obeys; try done; intros f m Hf Hm.
    - rewrite HfA in Hf. injection Hf as <-. rewrite HmA in Hm. by injection Hm as <-.
    - rewrite HfB in Hf. injection Hf as <-. rewrite HmB in Hm.
      injection Hm as <-. by symmetry. }
  rewrite Htr in *. clear Htr.
  destruct Hwatch as [s5 Hwatch].
  rewrite watch_app in Hwatch.
  destruct (watch n first _ pre) as [s1|] eqn:Hpre; [|done].
  cbn [watch] in Hwatch.
  destruct (observe n first s1 _) as [s2|] eqn:Hsave'; [|done].
  rewrite watch_app in Hwatch.
  destruct (watch n first s2 mid) as [s3|] eqn:Hmid; [|done].
  cbn [watch] in Hwatch.
  destruct (observe n first s3 _) as [s4|] eqn:Hfind'; [|done].
  pose proof (observe_stage _ _ _ _ _ _ i Hsave') as (_ & Htaken2 & _ & _).
  specialize (Htaken2 eq_refl).
  pose proof (watch_taken _ _ _ _ _ Hmid Htaken2) as Htaken3.
  pose proof (observe_stage _ _ _ _ _ _ i Hfind') as (_ & _ & Hmiss & Hi).
  specialize (Hmiss Htaken3). rewrite Nat.eqb_refl in Hi.
  destruct Hi as (st & st' & Hst3 & Hmon & Hst4).
  assert (Hchecking : ∃ sure, st = Checking sure
            ∧ st' = match r with
                    | inr None => Cleared
                    | inr (Some _) => Found sure
                    | inl _ => Refused
                    end).
  { destruct st; simpl in Hmon; try discriminate.
    case_bool_decide; [|discriminate]. injection Hmon as <-. by eexists. }
  destruct Hchecking as (sure3 & -> & ->). clear Hmon.
  assert (Hbefore : watch n first ([Checking true; Checking true], false)
                      (pre ++ (j, EvSave pkg (inr pkg)) :: mid) = Some s3).
  { rewrite watch_app, Hpre. cbn [watch]. by rewrite Hsave'. }
  destruct (watch_before_lookup _ _ i _ _ _ _ Hbefore Hst3)
    as (sure0 & Hst0 & Hquiet & Hsure).
  assert (Hsure0 : sure0 = true).
  { destruct i as [|[|i]]; simpl in Hst0; by simplify_eq. }
  specialize (Hsure Hsure0).
  replace (pre ++ (j, EvSave pkg (inr pkg)) :: mid
               ++ (i, EvFindOne v r) :: suf)%list
    with ((pre ++ (j, EvSave pkg (inr pkg)) :: mid)
            ++ (i, EvFindOne v r) :: suf)%list
    by (by rewrite <- app_assoc).
  rewrite calls_of_app, calls_of_cons, Nat.eqb_refl.
  assert (Hafter : ∀ dup, late dup (match r with
                                     | inr None => Cleared
                                     | inr (Some _) => Found sure3
                                     | inl _ => Refused
                                     end) →
                          ∀ ev, ev ∈ calls_of i suf → harmless dup ev).
  { intros dup Hlate. by apply (watch_after_lookup _ _ _ _ _ _ _ _ Hwatch Hst4). }
  assert (Hany : ∀ ev, ev ∈ calls_of i suf → harmless false ev).
  { apply Hafter. destruct r as [e|[x|]]; simpl in *; done. }
  split; [|split].
  - intros ev [Hin|[->|Hin]%elem_of_cons]%elem_of_app.
    + by destruct (Hquiet _ Hin).
    + done.
    + by destruct (Hany _ Hin).
  - intros resp [Hin|[Heq|Hin]%elem_of_cons]%elem_of_app.
    + destruct (Hquiet _ Hin) as [_ Hno]. by destruct (Hno resp).
    + done.
    + destruct (Hany _ Hin) as [_ Hresp].
      destruct (Hresp resp eq_refl) as (msg & code & -> & _). by eexists _, _.
  - intros Hanswered Hsum resp [Hin|[Heq|Hin]%elem_of_cons]%elem_of_app.
    + destruct (Hquiet _ Hin) as [_ Hno]. by destruct (Hno resp).
    + done.
    + assert (Hdup : ∀ ev, ev ∈ calls_of i suf → harmless true ev).
      { apply Hafter. destruct r as [e|[x|]]; simpl in *; try done.
        - by destruct (Hanswered e).
        - intros _. apply Hsure. destruct Hsum as [Hno|]; [left|by right].
          intros p e Hp. apply (Hno p e).
          apply elem_of_app. by left. }
      destruct (Hdup _ Hin) as [_ Hresp].
      destruct (Hresp resp eq_refl) as (msg & code & _ & Hd). by apply Hd.
Qed.

Lemma create_after_create_witness :
  let reqA := Sample.request "bob" (Some Sample.upload_click) in
  let reqB := Sample.request "carol" (Some Sample.upload_snap) in
  let sched := [1; 1; 1; 1; 1; 0; 0; 0; 0; 0; 0; 0; 0; 1; 1; 0]%nat in
  let a := Sample.created 2 "bob" in
  let tr := (interleave Sample.env sched
               [post Sample.env reqA; post Sample.env reqB]
               Sample.empty_world).2 in
  names_records Sample.env
  ∧ tr = (take 12 tr
            ++ (0%nat, EvSave a (inr a)) :: []
            ++ (1%nat, EvFindOne (Some "foo") (inr (Some a)))
            :: [(1%nat, EvRespond (Failure DUPLICATE_PACKAGE 400));
                (0%nat, EvRespond (Success a))])%list
  ∧ (∀ ev, ev ∈ calls_of 1 tr → is_write ev = false)
  ∧ (∀ resp, EvRespond resp ∈ calls_of 1 tr →
             resp = Failure DUPLICATE_PACKAGE 400).
Proof.
  intros reqA reqB sched a tr.
  assert (Hnames : names_records Sample.env).
  { split; [intros p m [b|] f; reflexivity|].
    intros p path icon stored [= <-]. reflexivity. }
  assert (Htr : tr = (take 12 tr
                        ++ (0%nat, EvSave a (inr a)) :: []
                        ++ (1%nat, EvFindOne (Some "foo") (inr (Some a)))
                        :: [(1%nat, EvRespond (Failure DUPLICATE_PACKAGE 400));
                            (0%nat, EvRespond (Success a))])%list)
    by (vm_compute; reflexivity).
  split; [exact Hnames|]. split; [exact Htr|].
  destruct (create_after_create Sample.env reqA reqB
              Sample.upload_click Sample.upload_snap
              (Sample.manifest "foo") (Sample.manifest "foo")
              Sample.empty_world sched (take 12 tr) 0%nat a [] 1%nat
              (Some "foo") (inr (Some a))
              [(1%nat, EvRespond (Failure DUPLICATE_PACKAGE 400));
               (0%nat, EvRespond (Success a))]
              Hnames eq_refl eq_refl eq_refl eq_refl eq_refl Htr)
    as (Hquiet & _ & Hdup).
  split; [exact Hquiet|].
  apply Hdup; [discriminate | right; reflexivity].
Defined.

(** C3 as stated fails.  [bob] and [carol] create a package named [foo] at
    the same time, and both lookups answer before either record is saved
    (the schedule lets the first request run up to its lookup, then the
    second, then each to its end).  Both pass the check and both upload.
    Without a unique index both are answered with their record and the
    registry holds two records named [foo]; with a unique index the second
    save is rejected by the store, and the second request is answered with
    the general failure of a create, not with DUPLICATE_PACKAGE. *)
Lemma concurrent_creates_both_pass :
  let reqA := Sample.request "bob" (Some Sample.upload_click) in
  let reqB := Sample.request "carol" (Some Sample.upload_snap) in
  let sched := [0; 0; 0; 0; 0; 0; 1; 1; 1; 1; 1; 1; 0; 0; 0; 1; 1; 1; 1]%nat in
  let plain := Sample.env in
  let unique := Sample.make (inr (Sample.manifest "foo")) (inr "c0ffee")
                            false false true in
  let run1 := interleave plain sched [post plain reqA; post plain reqB]
                         Sample.empty_world in
  let run2 := interleave unique sched [post unique reqA; post unique reqB]
                         Sample.empty_world in
  let a := Sample.created 1 "bob" in
  let b := Sample.created 2 "carol" in
  (registry_calls run1.2
   = [(0%nat, EvFindOne (Some "foo") (inr None));
      (1%nat, EvFindOne (Some "foo") (inr None));
      (0%nat, EvSave a (inr a));
      (1%nat, EvSave b (inr b))]
   ∧ responses (calls_of 0 run1.2) = [Success a]
   ∧ responses (calls_of 1 run1.2) = [Success b]
   ∧ registry run1.1.2 = [a; b]
   ∧ art_pkg <$> storage run1.1.2 = [a; b])
  ∧ (registry_calls run2.2
     = [(0%nat, EvFindOne (Some "foo") (inr None));
        (1%nat, EvFindOne (Some "foo") (inr None));
        (0%nat, EvSave a (inr a));
        (1%nat, EvSave b (inl E11000))]
     ∧ responses (calls_of 0 run2.2) = [Success a]
     ∧ responses (calls_of 1 run2.2) = [Failure CREATE_FAILED 500]
     ∧ registry run2.1.2 = [a]
     ∧ art_pkg <$> storage run2.1.2 = [a; b]).
Proof.
  vm_compute. repeat split.
Qed.

(** * Further properties of the handlers *)

(** ** What a create or an update leaves behind *)

(** X2. A create or an update that answers with a failure leaves the
    registry as it was; one that answers with a record has saved exactly
    that record, so the registry is the old one with the record put in. *)
Theorem registry_changes_on_success_only env op req w :
  (∃ msg code,
     responses (trace env (handler env op req) w) = [Failure msg code]
     ∧ registry (after env (handler env op req) w) = registry w)
  ∨ (∃ pkg,
       responses (trace env (handler env op req) w) = [Success pkg]
       ∧ registry (after env (handler env op req) w) = upsert pkg (registry w)
       ∧ EvSave pkg (inr pkg) ∈ trace env (handler env op req) w).
Proof.
  destruct op; walk.
  all: first [ left; do 2 eexists; split; reflexivity
             | right; eexists; split; [reflexivity|];
               split; [reflexivity | repeat constructor] ].
Qed.

(** X3. A create or an update uploads at most once: the remote store is
    either as it was or has grown by one artifact, the renamed file of the
    request, and then the upload is among the calls of the run. *)
Theorem at_most_one_artifact env op req w :
  storage (after env (handler env op req) w) = storage w
  ∨ ∃ f pkg icon stored,
      Request.file req = Some f
      ∧ storage (after env (handler env op req) w)
        = (storage w ++ [{| art_pkg := pkg; art_path := fileName f;
                            art_icon := icon |}])%list
      ∧ EvUpload pkg (fileName f) icon (inr stored)
          ∈ trace env (handler env op req) w.
Proof.
  destruct op; walk; auto.
  all: right; do 4 eexists; split; [reflexivity|];
       split; [reflexivity | repeat constructor].
Qed.

(** X4. The reviewer is only ever asked about the renamed file of a
    request whose extension is accepted, right after the rename has
    succeeded, and only for a caller that is neither administrator nor
    trusted. *)
Theorem review_after_rename_untrusted_only env op req w p r :
  EvReview p r ∈ trace env (handler env op req) w →
  ∃ f pre suf,
    Request.file req = Some f ∧ p = fileName f
    ∧ bad_extension f = false
    ∧ isAdminOrTrustedUser env
        (match op with
         | CreateSubmission => default_maintainer req
         | UpdateSubmission => req
         end) = false
    ∧ trace env (handler env op req) w
      = (pre ++ EvRename (File.path f) p (inr tt) :: EvReview p r :: suf)%list.
Proof.
  intros Hrev. destruct op; walk; decompose_list_elem_of; simplify_eq.
  all: eexists;
       first [ solve [ exists []; eexists;
                       repeat split; try reflexivity; try assumption ]
             | solve [ eexists [_]; eexists;
                       repeat split; try reflexivity; try assumption ] ].
Qed.

Lemma review_after_rename_untrusted_only_witness :
  let req := Sample.request "bob" (Some Sample.upload_click) in
  EvReview "/tmp/3f2a.click" (inr false)
    ∈ trace Sample.env (post Sample.env req) Sample.empty_world
  ∧ ∃ f pre suf,
      Request.file req = Some f ∧ "/tmp/3f2a.click" = fileName f
      ∧ bad_extension f = false
      ∧ isAdminOrTrustedUser Sample.env (default_maintainer req) = false
      ∧ trace Sample.env (post Sample.env req) Sample.empty_world
        = (pre ++ EvRename (File.path f) "/tmp/3f2a.click" (inr tt)
               :: EvReview "/tmp/3f2a.click" (inr false) :: suf)%list.
Proof.
  intros req.
  assert (Hrev : EvReview "/tmp/3f2a.click" (inr false)
                 ∈ trace Sample.env (handler Sample.env CreateSubmission req)
                         Sample.empty_world).
  { vm_compute. repeat constructor. }
  split; [exact Hrev|].
  exact (review_after_rename_untrusted_only Sample.env CreateSubmission req
           Sample.empty_world _ _ Hrev).
Defined.

(** X5. What a create or an update answers is a record, or one of the
    messages the handler reports with status 400, or one of its general
    messages with the status of an error without a code; the text of an
    unexpected error is never sent. *)
Theorem answers_by_status env op req w :
  (∃ pkg, responses (trace env (handler env op req) w) = [Success pkg])
  ∨ (∃ msg, responses (trace env (handler env op req) w) = [Failure msg 400]
            ∧ msg ∈ client_messages op)
  ∨ (∃ msg, responses (trace env (handler env op req) w)
            = [Failure msg (default_status env)]
            ∧ msg ∈ server_messages op).
Proof.
  destruct op; walk.
  all: first
    [ left; eexists; reflexivity
    | right; left; which_message; eexists;
      (split; first [ reflexivity | simpl; set_solver ])
    | right; right; eexists;
      (split; first [ reflexivity | simpl; set_solver ]) ].
Qed.

(** ** What a success is made of *)

(** X6. A create that answers with a record had a file of an accepted
    extension and a manifest with name, version and architecture; the
    lookup found no record under the name of the manifest; the document
    uploaded is [updateInfo] of a blank document that carries the checksum
    of the file; the record saved and answered is what the upload resolved
    with; and the renamed file is on disk. *)
Theorem create_success env req w pkg :
  responses (trace env (post env req) w) = [Success pkg] →
  ∃ f m sha,
    Request.file req = Some f
    ∧ bad_extension f = false
    ∧ malformed m = false
    ∧ find_by_id (Manifest.name m) (registry w) = None
    ∧ fileName f ∈ files (after env (post env req) w)
    ∧ storage (after env (post env req) w)
      = (storage w
         ++ [{| art_pkg :=
                  updateInfo env
                    (Package.set_download_sha512 (Some sha)
                       (Package.blank (next_oid w)))
                    (Some m) (default_body req) (Some f);
                art_path := fileName f;
                art_icon := Manifest.icon m |}])%list
    ∧ ∃ pre,
        trace env (post env req) w
        = (pre
           ++ [EvParse (fileName f) (inr m);
               EvNewPackage (Package.blank (next_oid w));
               EvChecksum (fileName f) (inr sha);
               EvFindOne (Manifest.name m) (inr None);
               EvUpload
                 (updateInfo env
                    (Package.set_download_sha512 (Some sha)
                       (Package.blank (next_oid w)))
                    (Some m) (default_body req) (Some f))
                 (fileName f) (Manifest.icon m) (inr pkg);
               EvSave pkg (inr pkg);
               EvRespond (Success pkg)])%list.
Proof.
  intros Hok. walk.
  all: do 3 eexists; repeat split; try eassumption; try reflexivity;
       try (simpl; set_solver).
  all: first [ by eexists [_] | by eexists [_; _] ].
Qed.

Lemma create_success_witness :
  let req := Sample.request "bob" (Some Sample.upload_click) in
  responses (trace Sample.env (post Sample.env req) Sample.empty_world)
    = [Success (Sample.created 1 "bob")]
  ∧ ∃ f m sha,
      Request.file req = Some f
      ∧ bad_extension f = false
      ∧ malformed m = false
      ∧ find_by_id (Manifest.name m) (registry Sample.empty_world) = None
      ∧ fileName f ∈ files (after Sample.env (post Sample.env req)
                                  Sample.empty_world)
      ∧ art_path <$> storage (after Sample.env (post Sample.env req)
                                    Sample.empty_world) = [fileName f]
      ∧ EvChecksum (fileName f) (inr sha)
          ∈ trace Sample.env (post Sample.env req) Sample.empty_world.
Proof.
  intros req.
  assert (Hok : responses (trace Sample.env (post Sample.env req)
                                 Sample.empty_world)
                = [Success (Sample.created 1 "bob")]) by reflexivity.
  split; [exact Hok|].
  destruct (create_success Sample.env req Sample.empty_world _ Hok)
    as (f & m & sha & Hf & Hext & Hm & Hfree & Hdisk & Hst & pre & Htr).
  exists f, m, sha. repeat split; try assumption.
  - rewrite Hst. reflexivity.
  - rewrite Htr. apply elem_of_app. right. repeat constructor.
Defined.

(** X7. An update with a file that answers with a record found the record
    under the non-empty id of the route, was made by an administrator or by
    the maintainer of that record, and carried a manifest with name,
    version and architecture whose name is the id of the record; the
    document uploaded is [updateInfo] of the record with the checksum of
    the new file, and the record saved and answered is what the upload
    resolved with. *)
Theorem update_success env req w pkg f :
  Request.file req = Some f →
  Request.params_id req ≠ "" →
  responses (trace env (put env req) w) = [Success pkg] →
  ∃ old m sha,
    find_by_id (Some (Request.params_id req)) (registry w) = Some old
    ∧ (isAdminUser env req = true
       ∨ Package.maintainer old = Some (Request.user_id req))
    ∧ bad_extension f = false
    ∧ malformed m = false
    ∧ Manifest.name m = Package.id old
    ∧ ∃ pre,
        trace env (put env req) w
        = (pre
           ++ [EvParse (fileName f) (inr m);
               EvChecksum (fileName f) (inr sha);
               EvUpload
                 (updateInfo env (Package.set_download_sha512 (Some sha) old)
                             (Some m) (Request.body req) (Some f))
                 (fileName f) (Manifest.icon m) (inr pkg);
               EvSave pkg (inr pkg);
               EvRespond (Success pkg)])%list.
Proof.
  intros Hfile Hid Hok. apply truthy_nonempty in Hid.
  walk.
  all: match goal with
       | H : find_by_id _ _ = Some _ |- _ =>
           pose proof (find_by_id_id _ _ _ H) as Hfound
       end.
  all: match goal with
       | H : truthy (Package.id _) && negb (loose_eq ?a ?b) = false |- _ =>
           rewrite Hfound, Hid in H; simpl in H;
           apply negb_false_iff, loose_eq_true in H
       end.
  all: do 3 eexists; split; [eassumption|].
  all: split; [first [ by left | right; symmetry; by apply loose_eq_true ]|].
  all: repeat split; try eassumption; try congruence.
  all: first [ by eexists [_; _] | by eexists [_; _; _] ].
Qed.

Lemma update_success_witness :
  let req := Sample.request "alice" (Some Sample.upload_click) in
  let pkg := Package.Build 0 (Some "foo") (Some "1.0") (Some "armhf") None
                           true (Some "c0ffee") None None in
  Request.file req = Some Sample.upload_click
  ∧ Request.params_id req ≠ ""
  ∧ responses (trace Sample.env (put Sample.env req) Sample.world)
    = [Success pkg]
  ∧ ∃ old m,
      find_by_id (Some "foo") (registry Sample.world) = Some old
      ∧ Manifest.name m = Package.id old
      ∧ malformed m = false.
Proof.
  intros req pkg.
  assert (Hid : Request.params_id req ≠ "") by discriminate.
  assert (Hok : responses (trace Sample.env (put Sample.env req) Sample.world)
                = [Success pkg]) by reflexivity.
  split; [reflexivity|]. split; [exact Hid|]. split; [exact Hok|].
  destruct (update_success Sample.env req Sample.world pkg Sample.upload_click
              eq_refl Hid Hok)
    as (old & m & sha & Hold & _ & _ & Hm & Hname & _).
  exists old, m. auto.
Defined.

(** X8. An update without a file touches neither the upload directory nor
    the remote store and calls nothing but the lookup, [save], the log and
    the response; what it saves is [updateInfo] of the record found, with
    the form and without a manifest, and only for an administrator or the
    maintainer of that record. *)
Theorem update_without_file env req w :
  Request.file req = None →
  files (after env (put env req) w) = files w
  ∧ storage (after env (put env req) w) = storage w
  ∧ (∀ ev, ev ∈ trace env (put env req) w →
       match ev with
       | EvFindOne _ _ | EvSave _ _ | EvLog _ _ | EvRespond _ => True
       | _ => False
       end)
  ∧ (∀ doc r, EvSave doc r ∈ trace env (put env req) w →
       ∃ old,
         find_by_id (Some (Request.params_id req)) (registry w) = Some old
         ∧ doc = updateInfo env old None (Request.body req) None
         ∧ (isAdminUser env req = true
            ∨ Package.maintainer old = Some (Request.user_id req))).
Proof.
  intros Hfile. walk.
  all: repeat split; try reflexivity.
  all: try (intros ev Hev; decompose_list_elem_of; simplify_eq; exact I).
  all: intros doc r Hsave; decompose_list_elem_of; simplify_eq.
  all: eexists; split; [reflexivity|]; split; [reflexivity|].
  all: first [ by left | right; symmetry; by apply loose_eq_true ].
Qed.

Lemma update_without_file_witness :
  let req := Sample.request "alice" None in
  Request.file req = None
  ∧ trace Sample.env (put Sample.env req) Sample.world
    = [EvFindOne (Some "foo") (inr (Some Sample.foo));
       EvSave (Sample.merge Sample.foo None (Request.body req) None)
              (inr (Sample.merge Sample.foo None (Request.body req) None));
       EvRespond (Success (Sample.merge Sample.foo None (Request.body req)
                                        None))]
  ∧ files (after Sample.env (put Sample.env req) Sample.world)
    = files Sample.world
  ∧ storage (after Sample.env (put Sample.env req) Sample.world) = [].
Proof.
  intros req.
  destruct (update_without_file Sample.env req Sample.world eq_refl)
    as (Hfiles & Hst & _).
  split; [reflexivity|]. split; [reflexivity|].
  split; [exact Hfiles | exact Hst].
Defined.

(** X9. A manifest that lacks its name, its version or its architecture
    is never written anywhere: no upload or save is called and registry
    and remote store are as before.  A create does not even look the name
    up, and it answers MALFORMED_MANIFEST with status 400 unless the
    checksum is rejected first. *)
Theorem malformed_manifest_rejected env op req w p m :
  EvParse p (inr m) ∈ trace env (handler env op req) w →
  malformed m = true →
  (∀ ev, ev ∈ trace env (handler env op req) w → is_write ev = false)
  ∧ registry (after env (handler env op req) w) = registry w
  ∧ storage (after env (handler env op req) w) = storage w
  ∧ (op = CreateSubmission →
     (∀ q r, EvFindOne q r ∉ trace env (handler env op req) w)
     ∧ (((∃ sha, checksum env p = inr sha)
         ∨ checksum_rejects_first env = false) →
        responses (trace env (handler env op req) w)
        = [Failure MALFORMED_MANIFEST 400])).
Proof.
  intros Hparse Hbad.
  destruct op; walk; decompose_list_elem_of; simplify_eq; try congruence.
  all: split; [in_trace|]; split; [reflexivity|]; split; [reflexivity|];
    intros Hop; try discriminate Hop;
    (split;
     [ intros q r Hq; decompose_list_elem_of; simplify_eq
     | intros [[sha Hsha]|Hfirst]; simplify_eq; try reflexivity; congruence ]).
Qed.

Lemma malformed_manifest_rejected_witness :
  let no_version := Manifest.Build (Some "foo") None (Some "armhf") None in
  let env := Sample.make (inr no_version) (inr "c0ffee") false false false in
  let req := Sample.request "bob" (Some Sample.upload_click) in
  EvParse "/tmp/3f2a.click" (inr no_version)
    ∈ trace env (post env req) Sample.empty_world
  ∧ malformed no_version = true
  ∧ responses (trace env (post env req) Sample.empty_world)
    = [Failure MALFORMED_MANIFEST 400]
  ∧ registry (after env (post env req) Sample.empty_world) = [].
Proof.
  intros no_version env req.
  assert (Hparse : EvParse "/tmp/3f2a.click" (inr no_version)
                   ∈ trace env (handler env CreateSubmission req)
                           Sample.empty_world).
  { vm_compute. repeat constructor. }
  destruct (malformed_manifest_rejected env CreateSubmission req
              Sample.empty_world _ _ Hparse eq_refl)
    as (_ & Hreg & _ & Hcreate).
  split; [exact Hparse|]. split; [reflexivity|]. split; [|exact Hreg].
  apply (Hcreate eq_refl). left. by exists "c0ffee".
Defined.

(** ** The extension of the file *)

(** [endsWith] is the test for a suffix. *)
Lemma endsWith_unfold s suf :
  endsWith s suf
  = String.eqb s suf
    || match s with
       | EmptyString => false
       | String _ t => endsWith t suf
       end.
Proof. destruct s; reflexivity. Qed.

Lemma endsWith_suffix s suf :
  endsWith s suf = true ↔ ∃ pre, s = pre +:+ suf.
Proof.
  split.
  - induction s as [|c t IH]; rewrite endsWith_unfold; intros H.
    + apply orb_true_iff in H as [H|H]; [|discriminate].
      apply String.eqb_eq in H. exists "". by subst.
    + apply orb_true_iff in H as [H|H].
      * apply String.eqb_eq in H. exists "". by subst.
      * destruct (IH H) as [pre ->]. by exists (String c pre).
  - intros [pre ->]. induction pre as [|c pre IH]; rewrite endsWith_unfold.
    + simpl. by rewrite String.eqb_refl.
    + simpl. rewrite IH. apply orb_true_r.
Qed.

(** X10. The extension test of a create and of [checkPackage] passes
    exactly the files whose original name is some text, possibly empty,
    followed by [.click] or by [.snap]. *)
Theorem accepted_extensions f :
  bad_extension f = false
  ↔ ∃ pre, File.originalname f = pre +:+ ".click"
           ∨ File.originalname f = pre +:+ ".snap".
Proof.
  unfold bad_extension. rewrite andb_false_iff, !negb_false_iff.
  rewrite !endsWith_suffix. naive_solver.
Qed.

Lemma append_cons c a b : String c a +:+ b = String c (a +:+ b).
Proof. reflexivity. Qed.

Lemma append_nil_l b : "" +:+ b = b.
Proof. reflexivity. Qed.

Lemma append_length a b :
  String.length (a +:+ b) = (String.length a + String.length b)%nat.
Proof.
  induction a as [|c a IH]; [done|]. rewrite append_cons. simpl. by rewrite IH.
Qed.

Lemma append_nil_r a : a +:+ "" = a.
Proof.
  induction a as [|c a IH]; [done|]. rewrite append_cons. by rewrite IH.
Qed.

Lemma append_same_length a b x y :
  a +:+ x = b +:+ y → String.length a = String.length b → a = b.
Proof.
  revert b. induction a as [|c a IH]; intros [|d b]; try done.
  rewrite !append_cons. intros [= -> Heq] [= Hlen]. f_equal. by apply IH.
Qed.

Lemma length_zero s : String.length s = 0%nat → s = "".
Proof. by destruct s. Qed.

(** X11. The path a file is renamed to is never the path it was uploaded
    to, and for a file that passes the extension test it is the upload
    path followed by the extension of the original name. *)
Theorem fileName_keeps_extension f :
  bad_extension f = false →
  fileName f ≠ File.path f
  ∧ ∃ ext, (ext = ".click" ∨ ext = ".snap")
           ∧ endsWith (File.originalname f) ext = true
           ∧ fileName f = File.path f +:+ ext
           ∧ endsWith (fileName f) ext = true.
Proof.
  intros Hok. split.
  - unfold fileName. intros Heq.
    apply (f_equal String.length) in Heq.
    destruct (endsWith _ _); rewrite append_length in Heq; simpl in Heq; lia.
  - unfold bad_extension in Hok. unfold fileName.
    destruct (endsWith (File.originalname f) ".click") eqn:Hclick.
    + exists ".click". repeat split; auto.
      apply endsWith_suffix. by eexists.
    + simpl in Hok. apply negb_false_iff in Hok.
      exists ".snap". repeat split; auto.
      apply endsWith_suffix. by eexists.
Qed.

Lemma fileName_keeps_extension_witness :
  bad_extension Sample.upload_snap = false
  ∧ fileName Sample.upload_snap ≠ File.path Sample.upload_snap
  ∧ fileName Sample.upload_snap = "/tmp/77c1.snap".
Proof.
  split; [reflexivity|].
  split; [|reflexivity].
  exact (proj1 (fileName_keeps_extension Sample.upload_snap eq_refl)).
Defined.

(** * Properties of the read handlers *)

(** ** The filters of the list and of one app *)

Lemma split_cons sep s : ∃ piece pieces, split sep s = piece :: pieces.
Proof.
  induction s as [|c t (piece & pieces & IH)]; simpl; [by eexists _, _|].
  destruct (Ascii.eqb c sep); [by eexists _, _|].
  rewrite IH. by eexists _, _.
Qed.

Lemma join_cons sep a b l :
  join sep (a :: b :: l) = a +:+ String sep (join sep (b :: l)).
Proof. reflexivity. Qed.

(** Splitting loses nothing: the pieces joined again are the string, no
    piece holds the separator, and there is one piece more than there are
    separators. *)
Lemma split_join sep s :
  join sep (split sep s) = s
  ∧ Forall (λ piece, has_char sep piece = false) (split sep s)
  ∧ length (split sep s) = S (count_char sep s).
Proof.
  induction s as [|c t (IHjoin & IHall & IHlen)].
  { repeat split. by constructor. }
  destruct (split_cons sep t) as (piece & pieces & Hsplit).
  cbn [split count_char]. destruct (Ascii.eqb c sep) eqn:Hc.
  - apply Ascii.eqb_eq in Hc as ->. split; [|split].
    + rewrite Hsplit, join_cons, <- Hsplit, IHjoin. reflexivity.
    + by constructor.
    + simpl. by rewrite IHlen.
  - rewrite Hsplit in *. split; [|split].
    + destruct pieces as [|b l].
      * simpl in *. by rewrite <- IHjoin.
      * rewrite join_cons in *. rewrite <- IHjoin. reflexivity.
    + inversion IHall; subst. constructor; [|done]. simpl. by rewrite Hc.
    + done.
Qed.

(** X12. A non-empty [frameworks] parameter makes the list and the app
    query ask for the framework to be one of its pieces between commas:
    joined with commas the pieces give the parameter back, no piece holds a
    comma, and there is one piece more than there are commas (so empty
    pieces are kept). *)
Theorem framework_filter_pieces qs s :
  QueryString.frameworks qs = Some s →
  s ≠ "" →
  ∃ pieces,
    framework_filter qs = Some (OneOf pieces)
    ∧ join "," pieces = s
    ∧ Forall (λ piece, has_char "," piece = false) pieces
    ∧ length pieces = S (count_char "," s).
Proof.
  intros Hs Hne. unfold framework_filter. rewrite Hs.
  rewrite (truthy_nonempty _ Hne). simpl.
  eexists. split; [reflexivity|]. apply split_join.
Qed.

Lemma framework_filter_pieces_witness :
  let s := "ubuntu-sdk-15.04,ubuntu-sdk-16.04" in
  let qs := QueryString.Build QAbsent (Some s) None in
  s ≠ ""
  ∧ ∃ pieces,
      framework_filter qs = Some (OneOf pieces)
      ∧ join "," pieces = s
      ∧ Forall (λ piece, has_char "," piece = false) pieces
      ∧ length pieces = S (count_char "," s).
Proof.
  intros s qs.
  assert (Hne : s ≠ "") by discriminate.
  split; [exact Hne|].
  exact (framework_filter_pieces qs s eq_refl Hne).
Defined.

(** X13. A non-empty [architecture] parameter makes the list and the app
    query ask for the same architectures: the one asked for and [all], each
    once, and nothing else. *)
Theorem architecture_filter_all qs a id :
  QueryString.architecture qs = Some a →
  a ≠ "" →
  ∃ l,
    Query.architectures (list_query qs) = Some l
    ∧ Query.architectures (app_query qs id) = Some l
    ∧ a ∈ l ∧ "all" ∈ l ∧ NoDup l
    ∧ ∀ x, x ∈ l → x = a ∨ x = "all".
Proof.
  intros Ha Hne. simpl. unfold architecture_filter. rewrite Ha.
  rewrite (truthy_nonempty _ Hne). simpl.
  destruct (String.eqb a "all") eqn:Hall; simpl.
  - apply String.eqb_eq in Hall as ->.
    eexists. repeat split; try set_solver. apply NoDup_singleton.
  - apply String.eqb_neq in Hall.
    eexists. repeat split; try set_solver.
    apply NoDup_cons. split; [set_solver | apply NoDup_singleton].
Qed.

Lemma architecture_filter_all_witness :
  let qs := QueryString.Build QAbsent None (Some "armhf") in
  "armhf" ≠ ""
  ∧ ∃ l,
      Query.architectures (list_query qs) = Some l
      ∧ Query.architectures (app_query qs "foo") = Some l
      ∧ "armhf" ∈ l ∧ "all" ∈ l ∧ NoDup l
      ∧ ∀ x, x ∈ l → x = "armhf" ∨ x = "all".
Proof.
  intros qs.
  assert (Hne : "armhf" ≠ "") by discriminate.
  split; [exact Hne|].
  exact (architecture_filter_all qs "armhf" "foo" eq_refl Hne).
Defined.

(** ** The envelope of the list *)

Lemma substring_prefix p s :
  String.substring 0 (String.length p) s = p ↔ ∃ rest, s = p +:+ rest.
Proof.
  revert s. induction p as [|c p IH]; intros s; simpl.
  - split; [by exists s|]. intros _. by destruct s.
  - destruct s as [|d s]; simpl.
    + split; [discriminate | by intros [rest ?]].
    + split.
      * intros [= -> H]. apply IH in H as [rest ->]. by exists rest.
      * intros [rest [= -> ->]]. f_equal. apply IH. by exists rest.
Qed.

(** X14. The list is sent in one of three envelopes, chosen by the URL
    that was asked for: the bare package list for exactly
    [/repo/repolist.json], the list with its count for every URL that
    begins with [/api/v1/apps], the plain list otherwise.  So
    [/repo/repolist.json] followed by anything, a query string for one,
    gets the plain list. *)
Theorem envelope_by_url url count pkgs :
  ((url = "/repo/repolist.json"
    ∧ envelope url count pkgs = ReplyRepoList pkgs)
   ∨ (url ≠ "/repo/repolist.json"
      ∧ (∃ rest, url = "/api/v1/apps" +:+ rest)
      ∧ envelope url count pkgs = ReplySuccess (Counted count pkgs))
   ∨ (url ≠ "/repo/repolist.json"
      ∧ (¬ ∃ rest, url = "/api/v1/apps" +:+ rest)
      ∧ envelope url count pkgs = ReplySuccess (Packages pkgs)))
  ∧ ∀ c rest,
      envelope ("/repo/repolist.json" +:+ String c rest) count pkgs
      = ReplySuccess (Packages pkgs).
Proof.
  split.
  - unfold envelope.
    destruct (String.eqb url "/repo/repolist.json") eqn:Hrepo.
    { apply String.eqb_eq in Hrepo. by left. }
    apply String.eqb_neq in Hrepo. right.
    destruct (String.eqb (String.substring 0 12 url) "/api/v1/apps") eqn:Hv1.
    + apply String.eqb_eq in Hv1.
      left. repeat split; [done|]. by apply (substring_prefix "/api/v1/apps").
    + apply String.eqb_neq in Hv1.
      right. repeat split; [done|]. intros Hrest.
      by apply (substring_prefix "/api/v1/apps") in Hrest.
  - intros c rest. unfold envelope.
    destruct (String.eqb _ "/repo/repolist.json") eqn:Hrepo.
    + apply String.eqb_eq in Hrepo. apply (f_equal String.length) in Hrepo.
      rewrite append_length in Hrepo. simpl in Hrepo. lia.
    + reflexivity.
Qed.

(** ** The download counters *)

Lemma replace_dots_no_dot s : has_char "." (replace_dots s) = false.
Proof.
  induction s as [|c t IH]; [reflexivity|]. simpl.
  destruct (Ascii.eqb c ".") eqn:Hc; simpl; [exact IH|].
  by rewrite Hc.
Qed.

Lemma replace_dots_injective a b :
  has_char "_" a = false → has_char "_" b = false →
  replace_dots a = replace_dots b → a = b.
Proof.
  revert b. induction a as [|c a IH]; intros [|d b] Ha Hb Heq.
  - reflexivity.
  - simpl in Heq. destruct (Ascii.eqb d "."); discriminate.
  - simpl in Heq. destruct (Ascii.eqb c "."); discriminate.
  - simpl in Ha, Hb, Heq.
    apply orb_false_iff in Ha as [Hc Ha], Hb as [Hd Hb].
    destruct (Ascii.eqb c ".") eqn:Hcdot, (Ascii.eqb d ".") eqn:Hddot;
      simpl in Heq.
    + apply Ascii.eqb_eq in Hcdot, Hddot. subst.
      injection Heq as Heq. f_equal. by apply IH.
    + injection Heq as Hhead _. subst d. by rewrite Ascii.eqb_refl in Hd.
    + injection Heq as Hhead _. subst c. by rewrite Ascii.eqb_refl in Hc.
    + injection Heq as -> Heq. f_equal. by apply IH.
Qed.

(** X15. The key under which the downloads of a version are counted holds
    no dot, and two versions without an underscore have different keys
    unless they are the same version. *)
Theorem version_key_field v1 v2 :
  has_char "_" v1 = false →
  has_char "_" v2 = false →
  has_char "." (version_key v1) = false
  ∧ (version_key v1 = version_key v2 → v1 = v2).
Proof.
  intros H1 H2. split.
  - unfold version_key. simpl. apply replace_dots_no_dot.
  - unfold version_key. intros [= Heq].
    by apply replace_dots_injective.
Qed.

Lemma version_key_field_witness :
  has_char "_" "1.0" = false
  ∧ has_char "_" "1.1" = false
  ∧ version_key "1.0" = "v1__0"
  ∧ has_char "." (version_key "1.0") = false
  ∧ (version_key "1.0" = version_key "1.1" → "1.0" = "1.1").
Proof.
  split; [reflexivity|]. split; [reflexivity|]. split; [reflexivity|].
  exact (version_key_field "1.0" "1.1" eq_refl eq_refl).
Defined.

Lemma find_matches q reg pkg :
  List.find (matches q) reg = Some pkg → pkg ∈ reg ∧ matches q pkg = true.
Proof.
  intros H. apply find_some in H as [Hin Hm]. split; [|done].
  by apply list_elem_of_In.
Qed.

(** X16. A download either redirects, with status 301, to the package of a
    published record that has the id asked for, and then the counter of
    that record's version is one more than before (one, if there was none)
    and every other counter is as before; or it does not redirect and
    leaves all counters as they were. *)
Theorem download_counts env renv id reg c :
  (∃ pkg version,
     pkg ∈ reg ∧ Package.id pkg = Some id ∧ Package.published pkg = true
     ∧ Package.version pkg = Some version
     ∧ (download env renv id reg c).1
       = answered (ReplyRedirect 301 (Package.package pkg))
     ∧ (download env renv id reg c).2 !! (Package._id pkg, version_key version)
       = Some (S (default 0%nat (c !! (Package._id pkg, version_key version))))
     ∧ ∀ k, k ≠ (Package._id pkg, version_key version) →
            (download env renv id reg c).2 !! k = c !! k)
  ∨ ((download env renv id reg c).2 = c
     ∧ ∀ code url,
         reply (download env renv id reg c).1 ≠ Some (ReplyRedirect code url)).
Proof.
  unfold download.
  destruct (findOne_fails env (Some id)); [by right|].
  destruct (List.find _ reg) as [pkg|] eqn:Hfind; [|by right].
  apply find_matches in Hfind as [Hin Hm].
  unfold matches in Hm. simpl in Hm.
  rewrite andb_true_r in Hm. apply andb_true_iff in Hm as [Hpub Hid].
  apply Bool.eqb_prop in Hpub. apply loose_eq_true in Hid.
  destruct (Package.version pkg) as [version|] eqn:Hv; [|by right].
  destruct (update_fails renv pkg); [by right|].
  left. exists pkg, version. simpl. unfold increment.
  repeat split; try done.
  - apply lookup_insert_eq.
  - intros k Hk. by apply lookup_insert_ne.
Qed.

(** X17. When the package of a download is found but the update of its
    counter is rejected, the handler logs the error and sends nothing at
    all: no redirect and no error response; the counters are as before. *)
Theorem download_update_rejected env renv id reg c pkg version err :
  findOne_fails env (Some id) = None →
  List.find (matches (download_query id)) reg = Some pkg →
  Package.version pkg = Some version →
  update_fails renv pkg = Some err →
  download env renv id reg c
  = ({| reply := None; logged := [err]; uncaught := None; fetched := [] |}, c).
Proof.
  intros Hdb Hfind Hv Hup. unfold download.
  by rewrite Hdb, Hfind, Hv, Hup.
Qed.

Lemma download_update_rejected_witness :
  let renv := SampleRead.read_env (Some Sample.EIO) in
  List.find (matches (download_query "foo")) [Sample.foo] = Some Sample.foo
  ∧ download Sample.env renv "foo" [Sample.foo] ∅
    = ({| reply := None; logged := [Sample.EIO]; uncaught := None;
          fetched := [] |}, ∅).
Proof.
  intros renv. split; [reflexivity|].
  exact (download_update_rejected Sample.env renv "foo" [Sample.foo] ∅
           Sample.foo "0.9" Sample.EIO eq_refl eq_refl eq_refl eq_refl).
Defined.

(** ** The id of an icon *)

Lemma startsWith_nil s : startsWith s "" = true.
Proof. by destruct s. Qed.

Lemma startsWith_prefix s pat :
  startsWith s pat = true → s = pat +:+ skipn_string (String.length pat) s.
Proof.
  revert s. induction pat as [|p pat IH]; intros [|c s]; simpl; try done.
  intros [Hc Hs]%andb_true_iff. apply Ascii.eqb_eq in Hc as ->.
  rewrite append_cons. f_equal. by apply IH.
Qed.

Lemma indexOf_range s pat : -1 ≤ indexOf s pat.
Proof.
  induction s as [|c t IH]; cbn [indexOf].
  - destruct (startsWith "" pat); lia.
  - destruct (startsWith (String c t) pat); [lia|].
    destruct (indexOf t pat <? 0) eqn:Hneg; [lia|].
    apply Z.ltb_ge in Hneg. lia.
Qed.

(** Where [indexOf] finds nothing, [replace] changes nothing. *)
Lemma replace_first_absent s pat rep :
  indexOf s pat = -1 → replace_first s pat rep = s.
Proof.
  induction s as [|c t IH]; cbn [indexOf replace_first].
  - destruct (startsWith "" pat); [discriminate | done].
  - destruct (startsWith (String c t) pat); [discriminate|].
    destruct (indexOf t pat <? 0) eqn:Hneg.
    + intros _. f_equal. apply IH. apply Z.ltb_lt in Hneg.
      pose proof (indexOf_range t pat). lia.
    + apply Z.ltb_ge in Hneg. lia.
Qed.

(** Where [indexOf] finds [pat], the string splits there and [replace]
    puts [rep] in its place. *)
Lemma replace_first_found s pat rep :
  0 ≤ indexOf s pat →
  ∃ pre post,
    s = pre +:+ pat +:+ post
    ∧ Z.of_nat (String.length pre) = indexOf s pat
    ∧ replace_first s pat rep = pre +:+ rep +:+ post.
Proof.
  induction s as [|c t IH]; cbn [indexOf replace_first].
  - destruct (startsWith "" pat) eqn:Hstart; [|lia].
    intros _. exists "", (skipn_string (String.length pat) "").
    repeat split. by apply startsWith_prefix.
  - destruct (startsWith (String c t) pat) eqn:Hstart.
    + intros _. exists "", (skipn_string (String.length pat) (String c t)).
      repeat split. by apply startsWith_prefix.
    + destruct (indexOf t pat <? 0) eqn:Hneg; [lia|].
      apply Z.ltb_ge in Hneg. intros _.
      destruct (IH Hneg) as (pre & post & Hs & Hlen & Hrep).
      exists (String c pre), post. rewrite !append_cons.
      repeat split; [by rewrite Hs at 1 | simpl; lia | by rewrite Hrep].
Qed.

(** X18. The id an icon is looked up by is the id of the request, or the
    id of the request without a final [.png]: nothing else is ever cut
    off. *)
Theorem icon_id_strips id :
  icon_id id = id ∨ id = icon_id id +:+ ".png".
Proof.
  unfold icon_id.
  destruct (indexOf id ".png" =? _) eqn:Hat; [|by left].
  apply Z.eqb_eq in Hat.
  destruct (Z.eq_dec (indexOf id ".png") (-1)) as [Hno|Hyes].
  { left. by apply replace_first_absent. }
  pose proof (indexOf_range id ".png").
  destruct (replace_first_found id ".png" "") as (pre & post & Hid & Hlen & Hrep);
    [lia|].
  right. rewrite Hrep. simpl.
  assert (Hpost : post = "").
  { apply length_zero. apply (f_equal String.length) in Hid.
    rewrite !append_length in Hid. simpl in Hid. lia. }
  subst post. rewrite append_nil_r in *. exact Hid.
Qed.

Lemma indexOf_app_png base :
  indexOf base ".png" = -1 →
  indexOf (base +:+ ".png") ".png" = Z.of_nat (String.length base).
Proof.
  induction base as [|c t IH]; [reflexivity|].
  cbn [indexOf]. destruct (startsWith (String c t) ".png") eqn:Hstart;
    [discriminate|].
  destruct (indexOf t ".png" <? 0) eqn:Hneg; [|apply Z.ltb_ge in Hneg; lia].
  intros _. apply Z.ltb_lt in Hneg. pose proof (indexOf_range t ".png").
  assert (Hstart' : startsWith (String c t +:+ ".png") ".png" = false).
  { clear IH Hneg H.
    destruct t as [|c2 [|c3 [|c4 t]]];
      rewrite ?append_cons, ?append_nil_l; simpl in *;
      rewrite ?startsWith_nil in *; try exact Hstart;
      repeat match goal with
             | |- context [Ascii.eqb ?x ?y] =>
                 is_var x; destruct (Ascii.eqb x y)
             end; reflexivity. }
  change (String c t +:+ ".png") with (String c (t +:+ ".png")) in *.
  cbn [indexOf]. rewrite Hstart'. rewrite IH by lia.
  destruct (Z.of_nat (String.length t) <? 0) eqn:Hlt;
    [apply Z.ltb_lt in Hlt; lia|].
  cbn [String.length]. lia.
Qed.

(** X19. For an id in which [.png] does not occur, the icon is found
    under that id whether the request names it with or without a final
    [.png]. *)
Theorem icon_id_of_png base :
  indexOf base ".png" = -1 →
  icon_id (base +:+ ".png") = base ∧ icon_id base = base.
Proof.
  intros Hno. split.
  - unfold icon_id.
    rewrite indexOf_app_png by done.
    rewrite append_length. simpl.
    replace (Z.of_nat (String.length base)
             =? Z.of_nat (String.length base + 4) - 4) with true
      by (symmetry; apply Z.eqb_eq; lia).
    destruct (replace_first_found (base +:+ ".png") ".png" "")
      as (pre & post & Hid & Hlen & Hrep).
    { rewrite indexOf_app_png by done. lia. }
    rewrite Hrep. simpl. rewrite indexOf_app_png in Hlen by done.
    assert (Hpost : post = "").
    { apply length_zero. apply (f_equal String.length) in Hid.
      rewrite !append_length in Hid. simpl in Hid. lia. }
    subst post. rewrite !append_nil_r in *.
    symmetry. eapply append_same_length; [exact Hid | lia].
  - unfold icon_id. destruct (_ =? _); [|done]. by apply replace_first_absent.
Qed.

Lemma icon_id_of_png_witness :
  indexOf "com.ubuntu.calculator" ".png" = -1
  ∧ icon_id "com.ubuntu.calculator.png" = "com.ubuntu.calculator"
  ∧ icon_id "com.ubuntu.calculator" = "com.ubuntu.calculator".
Proof.
  split; [reflexivity|].
  exact (icon_id_of_png "com.ubuntu.calculator" eq_refl).
Defined.

(** ** The icon handler *)

(** X20. A request for an icon is always answered with a file.  With
    status 200 it is the icon of a record that has the id looked up and an
    icon: the file of the data directory when that is there, and then
    nothing is fetched, or else what one fetch of the record's icon
    resolved with.  In every other case, a rejected lookup or fetch among
    them, the answer is the placeholder with status 404, one error is
    logged and at most one fetch was made. *)
Theorem icon_outcome env renv cache id reg :
  (∃ pkg file,
     pkg ∈ reg ∧ Package.id pkg = Some (icon_id id)
     ∧ truthy (Package.icon pkg) = true
     ∧ reply (icon env renv cache id reg)
       = Some (ReplyStream 200
                 [("Content-type", mime_lookup renv file);
                  ("Cache-Control", "public, max-age=2592000")] file)
     ∧ ((icon_file renv pkg ∈ cache ∧ file = icon_file renv pkg
         ∧ fetched (icon env renv cache id reg) = [])
        ∨ ((icon_file renv pkg ∉ cache)
           ∧ helpers_download renv (to_string (Package.icon pkg))
                              (icon_file renv pkg) = inr file
           ∧ fetched (icon env renv cache id reg)
             = [(to_string (Package.icon pkg), icon_file renv pkg)])))
  ∨ (reply (icon env renv cache id reg)
     = Some (ReplyStream 404 [] PLACEHOLDER)
     ∧ length (logged (icon env renv cache id reg)) = 1%nat
     ∧ (length (fetched (icon env renv cache id reg)) ≤ 1)%nat).
Proof.
  unfold icon.
  destruct (findOne_fails env (Some (icon_id id))); [right; simpl; auto|].
  destruct (List.find _ reg) as [pkg|] eqn:Hfind; [|right; simpl; auto].
  apply find_matches in Hfind as [Hin Hm].
  unfold matches in Hm. simpl in Hm. rewrite andb_true_r in Hm.
  apply loose_eq_true in Hm.
  destruct (truthy (Package.icon pkg)) eqn:Hicon; simpl; [|right; simpl; auto].
  destruct (decide (icon_file renv pkg ∈ cache)) as [Hc|Hc].
  - left. exists pkg, (icon_file renv pkg). simpl. repeat split; auto.
  - destruct (helpers_download renv _ _) as [err|file] eqn:Hdl.
    + right. simpl. auto.
    + left. exists pkg, file. simpl. repeat split; auto.
Qed.

(** ** One app *)

(** X21. When the lookup is not rejected, the handler of one app answers
    either with a record of the registry that is published, has the id
    asked for and meets the other conditions of the query, or with
    APP_NOT_FOUND under status 404, and then no published record with that
    id meets those conditions: an unpublished package is never shown. *)
Theorem get_app_published env renv qs id reg :
  findOne_fails env (Some id) = None →
  (∃ pkg,
     get_app env renv qs id reg = answered (ReplySuccess (OnePackage pkg))
     ∧ pkg ∈ reg ∧ Package.published pkg = true ∧ Package.id pkg = Some id
     ∧ other_fields renv (app_query qs id) pkg = true)
  ∨ (get_app env renv qs id reg = answered (ReplyError APP_NOT_FOUND 404)
     ∧ ∀ pkg, pkg ∈ reg → Package.published pkg = true →
              Package.id pkg = Some id →
              other_fields renv (app_query qs id) pkg = false).
Proof.
  intros Hdb. unfold get_app. rewrite Hdb.
  destruct (List.find _ reg) as [pkg|] eqn:Hfind.
  - left. exists pkg. apply find_some in Hfind as [Hin Hm].
    apply andb_true_iff in Hm as [Hm Hother].
    unfold matches in Hm. simpl in Hm. rewrite andb_true_r in Hm.
    apply andb_true_iff in Hm as [Hpub Hid].
    apply Bool.eqb_prop in Hpub. apply loose_eq_true in Hid.
    repeat split; auto. by apply list_elem_of_In.
  - right. split; [reflexivity|].
    intros pkg Hin Hpub Hid. apply list_elem_of_In in Hin.
    pose proof (find_none _ _ Hfind _ Hin) as Hno. simpl in Hno.
    unfold matches in Hno. simpl in Hno.
    rewrite Hpub, Hid, loose_eq_refl in Hno. exact Hno.
Qed.

Lemma get_app_published_witness :
  let unpublished :=
    Package.Build 7 (Some "bar") (Some "2.0") (Some "all") (Some "alice")
                  false None None None in
  let qs := QueryString.Build QAbsent None None in
  let renv := SampleRead.read_env None in
  findOne_fails Sample.env (Some "bar") = None
  ∧ get_app Sample.env renv qs "bar" [Sample.foo; unpublished]
    = answered (ReplyError APP_NOT_FOUND 404)
  ∧ get_app Sample.env renv qs "foo" [Sample.foo; unpublished]
    = answered (ReplySuccess (OnePackage Sample.foo)).
Proof.
  intros unpublished qs renv. split; [reflexivity|].
  destruct (get_app_published Sample.env renv qs "bar"
              [Sample.foo; unpublished] eq_refl)
    as [(pkg & Hok & _)|[Hmiss _]].
  - discriminate Hok.
  - split; [exact Hmiss | reflexivity].
Defined.

(** ** The packages of a maintainer *)

(** X22. When the query is not rejected, the list of the management page
    holds, for a caller who is not an administrator, exactly the records
    whose maintainer is the caller, and for an administrator every record
    of the registry. *)
Theorem manage_list_own env renv req reg :
  find_fails renv = None →
  (∀ l, sort_name renv l ≡ₚ l) →
  ∃ pkgs,
    manage_list env renv req reg = answered (ReplySuccess (Packages pkgs))
    ∧ ∀ pkg, pkg ∈ pkgs
             ↔ pkg ∈ reg
               ∧ (isAdminUser env req = true
                  ∨ Package.maintainer pkg = Some (Request.user_id req)).
Proof.
  intros Hdb Hsort. unfold manage_list. rewrite Hdb.
  eexists. split; [reflexivity|]. intros pkg.
  rewrite (Hsort _). rewrite list_elem_of_In, filter_In, <- list_elem_of_In.
  unfold manage_query, matches.
  destruct (isAdminUser env req); simpl.
  - naive_solver.
  - rewrite loose_eq_true. naive_solver.
Qed.

Lemma manage_list_own_witness :
  let bobs :=
    Package.Build 7 (Some "bar") (Some "2.0") (Some "all") (Some "bob")
                  false None None None in
  let renv := SampleRead.read_env None in
  find_fails renv = None
  ∧ (∀ l, sort_name renv l ≡ₚ l)
  ∧ manage_list Sample.env renv (Sample.request "bob" None) [Sample.foo; bobs]
    = answered (ReplySuccess (Packages [bobs])).
Proof.
  intros bobs renv.
  assert (Hsort : ∀ l, sort_name renv l ≡ₚ l) by reflexivity.
  split; [reflexivity|]. split; [exact Hsort|].
  destruct (manage_list_own Sample.env renv (Sample.request "bob" None)
              [Sample.foo; bobs] eq_refl Hsort) as (pkgs & Heq & _).
  reflexivity.
Defined.
